(** * Chunked JSON query engine ([json-database.service.ts])

    A shallow embedding of [JSONDatabaseService]: the chunk store
    ([readChunk], [getAllData]), the predicate evaluator ([filterData]),
    the query engine ([query], [count], [getDealById], [getDeals]), the
    aggregation pass ([getStatistics], [getFilterOptions]), the record
    schema adapter ([transformDealToCamelCase]) and the light grid query
    ([getDealsLight]); beside the service, the chunk loop of the conversion
    script ([convert-excel-to-json.js]) and the [check-data-loaded] handler
    of the main process.

    Modelling conventions.
    - A JavaScript value is a term of [value].  Numbers are the finite
      ones, modelled as exact rationals ([Q]); [NaN], the infinities and
      rounding are outside the model.  Comparisons of numbers are those of
      the code; sums and quotients are stated only at inputs where the
      double arithmetic of the code is exact.
    - A JavaScript object used as a map (a record of a chunk, a filter,
      the metadata table, the file system) is a [gmap] with string keys.
      Reading a property that is not there yields [VUndefined].
    - [===] on two arrays or two objects compares references.  Records come
      from freshly parsed chunk files and filters from the caller, so such
      operands are never the same reference: the comparison is [false].
    - Library behaviour that depends on the host (Unicode case mapping,
      number formatting in [String(v)], the coercions of [==] and [<] on
      operands of different types) is taken from a [JSRuntime] instance.
    - A chunk file that exists holds text that does not parse or an array
      of records; [limit], [offset] and the counts of the metadata are
      natural numbers ([limit] may also be [Infinity]).
    - A record is the map of its own properties; what a record inherits
      from [Object.prototype] is not modelled, except where the code looks
      a caller-given name up in [this.metadata] ([getTableMetadata]) and
      where it assigns to [__proto__] ([project]).
    - [Array.prototype.sort] is modelled by a stable insertion sort.  With
      a comparator that is a consistent order every sort returns that
      result; statements about the order of a sorted page are made only
      there, and otherwise use only that sorting permutes the page.
    - [throw new Error(msg)] is the [Throw msg] outcome of [result]. *)

From Stdlib Require Import QArith Ascii Sorted.
From stdpp Require Import gmap strings list fin_maps pretty.

Set Warnings "-register-all".

(** ** JavaScript values *)

Inductive value : Type :=
| VUndefined
| VNull
| VBool (b : bool)
| VNumber (q : Q)
| VString (s : string)
| VArray (items : list value)
| VObject (props : gmap string value).

Abbreviation record := (gmap string value).

(** [item[field]] *)
Definition get (item : record) (field : string) : value :=
  match item !! field with
  | Some v => v
  | None => VUndefined
  end.

(** [Object.entries(o)] *)
Definition entries (o : record) : list (string * value) := map_to_list o.

(** [Object.keys(o).length] *)
Definition keysLength (o : record) : nat := length (map_to_list o).

Definition isZero (q : Q) : bool := Qeq_bool q 0.

(** ToBoolean *)
Definition truthy (v : value) : bool :=
  match v with
  | VUndefined | VNull => false
  | VBool b => b
  | VNumber q => negb (isZero q)
  | VString s => negb (String.eqb s "")
  | VArray _ | VObject _ => true
  end.

(** [a || b] *)
Definition jsOr (a b : value) : value := if truthy a then a else b.

Definition isNumber (v : value) : bool :=
  match v with VNumber _ => true | _ => false end.

(** [a === b] (also SameValueZero, which differs on NaN only) *)
Definition strictEq (a b : value) : bool :=
  match a, b with
  | VUndefined, VUndefined => true
  | VNull, VNull => true
  | VBool x, VBool y => Bool.eqb x y
  | VNumber x, VNumber y => Qeq_bool x y
  | VString x, VString y => String.eqb x y
  | _, _ => false
  end.

Definition Qlt_bool (x y : Q) : bool := negb (Qle_bool y x).

(** Host-dependent library behaviour. *)
Class JSRuntime : Type := {
  (** [s.toLowerCase()] *)
  toLowerCase : string -> string;
  (** [String(v)] and template-literal interpolation *)
  toStr : value -> string;
  (** [a == b] when no case of [looseEq] below applies *)
  coerceEq : value -> value -> bool;
  (** [a < b] when no case of [lessThan] below applies *)
  coerceLt : value -> value -> bool
}.

(** [hay.includes(needle)] on strings *)
Fixpoint strIncludes (needle hay : string) : bool :=
  String.prefix needle hay ||
  match hay with
  | EmptyString => false
  | String _ rest => strIncludes needle rest
  end.

Fixpoint strLtb (s t : string) : bool :=
  match s, t with
  | _, EmptyString => false
  | EmptyString, String _ _ => true
  | String a s', String b t' =>
      (nat_of_ascii a <? nat_of_ascii b)%nat ||
      ((nat_of_ascii a =? nat_of_ascii b)%nat && strLtb s' t')
  end.

(** ** Outcomes: a returned value or a thrown [Error] *)

Inductive result (A : Type) : Type :=
| Ok (a : A)
| Throw (msg : string).
Arguments Ok {A} a.
Arguments Throw {A} msg.

#[export] Instance result_ret : MRet result := fun A a => Ok a.
#[export] Instance result_bind : MBind result := fun A B f r =>
  match r with
  | Ok a => f a
  | Throw msg => Throw msg
  end.

(** ** Chunk store *)

Record TableMetadata : Type := {
  name : string;
  chunksCount : nat;
  totalRows : nat;
  columns : list string
}.

(** What [JSON.parse(fs.readFileSync(path, 'utf8'))] finds in a file that
    exists: text that does not parse, or an array of records. *)
Inductive fileContent : Type :=
| Unparseable
| Json (records : list record).

(** The service object ([this]) together with the disk it reads. *)
Record service : Type := {
  dataDirectory : string;
  metadata : gmap string TableMetadata;
  disk : gmap string fileContent
}.

(** [path.join], without normalisation of the segments *)
Definition pathJoin (segments : list string) : string :=
  String.concat "/" segments.

Definition existsSync (svc : service) (path : string) : bool :=
  match disk svc !! path with Some _ => true | None => false end.

Definition parseFile (svc : service) (path : string) : result (list record) :=
  match disk svc !! path with
  | Some (Json records) => Ok records
  | Some Unparseable => Throw "SyntaxError"
  | None => Throw "ENOENT"
  end.

(** The names every object inherits from [Object.prototype]. *)
Definition objectPrototypeKeys : list string :=
  ["constructor"; "toString"; "toLocaleString"; "valueOf"; "hasOwnProperty";
   "isPrototypeOf"; "propertyIsEnumerable"; "__proto__"; "__defineGetter__";
   "__defineSetter__"; "__lookupGetter__"; "__lookupSetter__"].

(** What the service reads from an inherited value taken for the metadata
    of a table: a function, or [Object.prototype] itself, has neither
    [chunksCount] nor [totalRows]; both read [undefined], so that no chunk
    index is below the count and the row count is falsy, as with 0. *)
Definition inheritedMetadata : TableMetadata :=
  {| name := ""; chunksCount := 0; totalRows := 0; columns := [] |}.

(** [this.metadata[tableName] || null]: [this.metadata] is a plain object,
    so a name that is no table of its own is looked up in
    [Object.prototype], where every value is truthy. *)
Definition getTableMetadata (svc : service) (tableName : string)
  : option TableMetadata :=
  match metadata svc !! tableName with
  | Some tableMetadata => Some tableMetadata
  | None =>
      if existsb (String.eqb tableName) objectPrototypeKeys
      then Some inheritedMetadata
      else None
  end.

(** The two places a chunk can be stored at. *)
Definition globalChunkPath (svc : service) (chunkIndex : nat) : string :=
  pathJoin [dataDirectory svc;
            "M&A Database_chunk_" +:+ pretty chunkIndex +:+ ".json"].

Definition tableChunkPath (svc : service) (tableName : string) (chunkIndex : nat)
  : string :=
  pathJoin [dataDirectory svc; tableName;
            "chunk_" +:+ pretty chunkIndex +:+ ".json"].

(** The [try] block of [readChunk]. *)
Definition readChunkTry (svc : service) (tableName : string) (chunkIndex : nat)
  : result (option (list record)) :=
  if String.eqb tableName "deals" && existsSync svc (globalChunkPath svc chunkIndex)
  then
    records ← parseFile svc (globalChunkPath svc chunkIndex); Ok (Some records)
  else
    if existsSync svc (tableChunkPath svc tableName chunkIndex) then
      records ← parseFile svc (tableChunkPath svc tableName chunkIndex);
      Ok (Some records)
    else Ok None.

(** [readChunk]: the [catch] turns every exception into [null] ([None]). *)
Definition readChunk (svc : service) (tableName : string) (chunkIndex : nat)
  : option (list record) :=
  match readChunkTry svc tableName chunkIndex with
  | Ok chunk => chunk
  | Throw _ => None
  end.

Definition tableNotFound {A} (tableName : string) : result A :=
  Throw ("Table '" +:+ tableName +:+ "' not found").

Definition getAllData (svc : service) (tableName : string) : result (list record) :=
  match getTableMetadata svc tableName with
  | None => tableNotFound tableName
  | Some tableMetadata =>
      Ok (foldl (fun allData i =>
                   match readChunk svc tableName i with
                   | Some chunkData => allData ++ chunkData
                   | None => allData
                   end)
                [] (seq 0 (chunksCount tableMetadata)))
  end.

(** ** Query engine *)

Inductive direction : Type := Asc | Desc.

Record sortSpec : Type := { field : string; direction_ : direction }.

(** The [sort] property of the options: left out, [null], or given. *)
Inductive sortOption : Type :=
| SortOmitted
| SortNull
| SortBy (spec : sortSpec).

(** A [limit]: a count or [Infinity]. *)
Inductive bound : Type :=
| Finite (n : nat)
| Infinity.

Record QueryOptions : Type := {
  filter : option record;
  limit : option bound;
  offset : option nat;
  fields : option (list string);
  sort : sortOption
}.

Definition noOptions : QueryOptions :=
  {| filter := None; limit := None; offset := None; fields := None;
     sort := SortOmitted |}.

Record QueryResult : Type := {
  data : list record;
  total : nat;
  offset_ : nat;
  limit_ : bound
}.

(** [n >= limit] *)
Definition reached (n : nat) (limit : bound) : bool :=
  match limit with
  | Finite l => (l <=? n)%nat
  | Infinity => false
  end.

(** [Math.min(n, limit - used)] *)
Definition minRemaining (n : nat) (limit : bound) (used : nat) : nat :=
  match limit with
  | Finite l => Nat.min n (l - used)
  | Infinity => n
  end.

Definition isNullish (v : value) : bool :=
  match v with VUndefined | VNull => true | _ => false end.

(** [results.sort(cmp)]: the sort is stable; it is modelled by insertion,
    which every stable sort agrees with when [cmp] is a consistent order.
    The comparator of [query] is not one when two records have a nullish
    sort field (it answers -1 both ways); the order of the answer is then
    the engine's, and the theorems state no more of it than that it is a
    permutation of the page. *)
Fixpoint insertBy {A} (cmp : A -> A -> Z) (x : A) (l : list A) : list A :=
  match l with
  | [] => [x]
  | y :: l' => if (cmp x y <=? 0)%Z then x :: l else y :: insertBy cmp x l'
  end.

Definition sortBy {A} (cmp : A -> A -> Z) (l : list A) : list A :=
  foldr (insertBy cmp) [] l.

(** The object built for one item by the field selection of [query]: of
    the requested fields, those the item has as own properties
    ([hasOwnProperty]).  [result["__proto__"] = v] is no property
    definition: it calls the setter of [Object.prototype], which adds no
    field to [result], so an own field of that name is lost. *)
Definition project (fields : list string) (item : record) : record :=
  foldl (fun result field =>
           match item !! field with
           | Some v =>
               if String.eqb field "__proto__" then result
               else <[field := v]> result
           | None => result
           end)
        ∅ fields.

(** The field selection of [query], applied when [fields] is not empty. *)
Definition selectFields (fields : list string) (results : list record)
  : list record :=
  if (0 <? length fields)%nat then map (project fields) results else results.

(** ** Record schema adapter *)

Definition pick (deal : record) (snake camel : string) : value :=
  jsOr (get deal snake) (get deal camel).

(** The properties of the object literal that [transformDealToCamelCase]
    returns. *)
Definition dealProperties (deal : record) : list (string * value) :=
    [("id", get deal "id");
     ("targetName", pick deal "target_name" "targetName");
     ("announcementDate", pick deal "announcement_date" "announcementDate");
     ("transactionType", pick deal "transaction_type" "transactionType");
     ("transactionStatus", pick deal "transaction_status" "transactionStatus");
     ("transactionValue", pick deal "transaction_value" "transactionValue");
     ("divestorName", pick deal "divestor_name" "divestorName");
     ("acquirerName", pick deal "acquirer_name" "acquirerName");
     ("targetRegion", pick deal "target_region" "targetRegion");
     ("targetDescription", pick deal "target_description" "targetDescription");
     ("evEbitdaMultiple", pick deal "ev_ebitda_multiple" "evEbitdaMultiple");
     ("evRevenueMultiple", pick deal "ev_revenue_multiple" "evRevenueMultiple");
     ("acquirerCountry", pick deal "acquirer_country" "acquirerCountry");
     ("targetIndustry1", pick deal "target_industry_1" "targetIndustry1");
     ("targetIndustry2", pick deal "target_industry_2" "targetIndustry2");
     ("dealSummary", pick deal "deal_summary" "dealSummary");
     ("transactionConsiderations",
      pick deal "transaction_considerations" "transactionConsiderations");
     ("targetEnterpriseValue",
      pick deal "target_enterprise_value" "targetEnterpriseValue");
     ("targetRevenue", pick deal "target_revenue" "targetRevenue");
     ("targetEbitda", pick deal "target_ebitda" "targetEbitda")].

Definition transformDealToCamelCase (deal : record) : record :=
  list_to_map (dealProperties deal).

(** The field names of the output convention: the keys of that literal. *)
Definition canonicalKeys : list string :=
  Eval cbv in map fst (dealProperties ∅).

(** [str.replace(/[A-Z]/g, letter => `_${letter.toLowerCase()}`)] *)
Definition isUpper (c : ascii) : bool :=
  (65 <=? nat_of_ascii c)%nat && (nat_of_ascii c <=? 90)%nat.

Definition lowerAscii (c : ascii) : ascii :=
  if isUpper c then ascii_of_nat (nat_of_ascii c + 32) else c.

Fixpoint camelToSnakeCase (str : string) : string :=
  match str with
  | EmptyString => EmptyString
  | String c rest =>
      if isUpper c then String "_" (String (lowerAscii c) (camelToSnakeCase rest))
      else String c (camelToSnakeCase rest)
  end.

(** ** Aggregation *)

(** The counters of [getStatistics]. *)
Record counters : Type := {
  c_totalDeals : nat;
  c_totalValue : Q;
  c_largestDeal : Q;
  c_sumValues : Q;
  c_valueCount : nat;
  c_completedDeals : nat;
  c_announcedDeals : nat;
  c_pendingDeals : nat
}.

Record statistics : Type := {
  totalDeals : nat;
  totalValue : Q;
  avgDealSize : Q;
  largestDeal : Q;
  completedDeals : nat;
  announcedDeals : nat;
  pendingDeals : nat
}.

Definition zeroCounters : counters :=
  {| c_totalDeals := 0; c_totalValue := 0; c_largestDeal := 0;
     c_sumValues := 0; c_valueCount := 0; c_completedDeals := 0;
     c_announcedDeals := 0; c_pendingDeals := 0 |}.

(** The transaction-value part of the [forEach] callback. *)
Definition addValue (c : counters) (deal : record) : counters :=
  match pick deal "transaction_value" "transactionValue" with
  | VNumber value =>
      if negb (isZero value) then
        {| c_totalDeals := c_totalDeals c;
           c_totalValue := c_totalValue c + value;
           c_largestDeal :=
             if Qlt_bool (c_largestDeal c) value then value else c_largestDeal c;
           c_sumValues := c_sumValues c + value;
           c_valueCount := S (c_valueCount c);
           c_completedDeals := c_completedDeals c;
           c_announcedDeals := c_announcedDeals c;
           c_pendingDeals := c_pendingDeals c |}
      else c
  | _ => c
  end.

(** The status part of the [forEach] callback. *)
Definition addStatus (c : counters) (deal : record) : counters :=
  let status := pick deal "transaction_status" "transactionStatus" in
  if truthy status then
    if strictEq status (VString "Completed") then
      {| c_totalDeals := c_totalDeals c; c_totalValue := c_totalValue c;
         c_largestDeal := c_largestDeal c; c_sumValues := c_sumValues c;
         c_valueCount := c_valueCount c;
         c_completedDeals := S (c_completedDeals c);
         c_announcedDeals := c_announcedDeals c;
         c_pendingDeals := c_pendingDeals c |}
    else if strictEq status (VString "Announced") then
      {| c_totalDeals := c_totalDeals c; c_totalValue := c_totalValue c;
         c_largestDeal := c_largestDeal c; c_sumValues := c_sumValues c;
         c_valueCount := c_valueCount c;
         c_completedDeals := c_completedDeals c;
         c_announcedDeals := S (c_announcedDeals c);
         c_pendingDeals := c_pendingDeals c |}
    else if strictEq status (VString "Pending") then
      {| c_totalDeals := c_totalDeals c; c_totalValue := c_totalValue c;
         c_largestDeal := c_largestDeal c; c_sumValues := c_sumValues c;
         c_valueCount := c_valueCount c;
         c_completedDeals := c_completedDeals c;
         c_announcedDeals := c_announcedDeals c;
         c_pendingDeals := S (c_pendingDeals c) |}
    else c
  else c.

Definition addDeal (c : counters) (deal : record) : counters :=
  addStatus (addValue c deal) deal.

Definition addChunk (c : counters) (chunkData : list record) : counters :=
  let c' :=
    {| c_totalDeals := c_totalDeals c + length chunkData;
       c_totalValue := c_totalValue c; c_largestDeal := c_largestDeal c;
       c_sumValues := c_sumValues c; c_valueCount := c_valueCount c;
       c_completedDeals := c_completedDeals c;
       c_announcedDeals := c_announcedDeals c;
       c_pendingDeals := c_pendingDeals c |} in
  foldl addDeal c' chunkData.

Definition summarise (c : counters) : statistics :=
  {| totalDeals := c_totalDeals c;
     totalValue := c_totalValue c;
     avgDealSize :=
       if (0 <? c_valueCount c)%nat
       then c_sumValues c / inject_Z (Z.of_nat (c_valueCount c))
       else 0;
     largestDeal := c_largestDeal c;
     completedDeals := c_completedDeals c;
     announcedDeals := c_announcedDeals c;
     pendingDeals := c_pendingDeals c |}.

Definition getStatistics (svc : service) : result statistics :=
  let tableName := "deals" in
  match getTableMetadata svc tableName with
  | None => tableNotFound tableName
  | Some tableMetadata =>
      Ok (summarise
            (foldl (fun c i =>
                      match readChunk svc tableName i with
                      | None => c
                      | Some chunkData => addChunk c chunkData
                      end)
                   zeroCounters (seq 0 (chunksCount tableMetadata))))
  end.

Section Runtime.
Context `{JSRuntime}.

(** [a == b] *)
Definition looseEq (a b : value) : bool :=
  match a, b with
  | (VUndefined | VNull), (VUndefined | VNull) => true
  | VBool x, VBool y => Bool.eqb x y
  | VNumber x, VNumber y => Qeq_bool x y
  | VString x, VString y => String.eqb x y
  | _, _ => coerceEq a b
  end.

(** [a < b]; [a > b] is [lessThan b a] *)
Definition lessThan (a b : value) : bool :=
  match a, b with
  | VNumber x, VNumber y => Qlt_bool x y
  | VString x, VString y => strLtb x y
  | _, _ => coerceLt a b
  end.

(** ** Predicate evaluator: [filterData] *)

(** The [switch (op)] of the operator map. *)
Definition evalOperator (fieldValue : value) (op : string) (val : value) : bool :=
  if String.eqb op "eq" then strictEq fieldValue val
  else if String.eqb op "ne" then negb (strictEq fieldValue val)
  else if String.eqb op "gt" then
    match fieldValue, val with
    | VNumber a, VNumber b => Qlt_bool b a
    | _, _ => false
    end
  else if String.eqb op "gte" then
    match fieldValue, val with
    | VNumber a, VNumber b => Qle_bool b a
    | _, _ => false
    end
  else if String.eqb op "lt" then
    match fieldValue, val with
    | VNumber a, VNumber b => Qlt_bool a b
    | _, _ => false
    end
  else if String.eqb op "lte" then
    match fieldValue, val with
    | VNumber a, VNumber b => Qle_bool a b
    | _, _ => false
    end
  else if String.eqb op "like" then
    match fieldValue with
    | VString s => strIncludes (toLowerCase (toStr val)) (toLowerCase s)
    | _ => false
    end
  else true.

(** The callback of [Object.entries(filter).every]. *)
Definition matchesClause (item : record) (field : string) (value : value) : bool :=
  match value with
  | VArray literals =>
      (length literals =? 0)%nat || existsb (strictEq (get item field)) literals
  | VObject ops =>
      forallb (fun '(op, val) => evalOperator (get item field) op val) (entries ops)
  | _ => strictEq (get item field) value
  end.

Definition matchesFilter (filter : record) (item : record) : bool :=
  forallb (fun '(field, value) => matchesClause item field value) (entries filter).

Definition filterData (data : list record) (filter : record) : list record :=
  if (keysLength filter =? 0)%nat then data
  else List.filter (matchesFilter filter) data.


Definition count (svc : service) (tableName : string) (filter : record)
  : result nat :=
  match getTableMetadata svc tableName with
  | None => tableNotFound tableName
  | Some tableMetadata =>
      if (keysLength filter =? 0)%nat && negb (totalRows tableMetadata =? 0)%nat
      then Ok (totalRows tableMetadata)
      else
        Ok (foldl (fun count i =>
                     match readChunk svc tableName i with
                     | Some chunkData =>
                         (count + length (filterData chunkData filter))%nat
                     | None => count
                     end)
                  0%nat (seq 0 (chunksCount tableMetadata)))
  end.

(** The comparator handed to [results.sort]. *)
Definition compareBy (sort : sortSpec) (a b : record) : Z :=
  let fieldA := get a (field sort) in
  let fieldB := get b (field sort) in
  let asc := match direction_ sort with Asc => true | Desc => false end in
  if isNullish fieldA then (if asc then -1 else 1)%Z
  else if isNullish fieldB then (if asc then 1 else -1)%Z
  else if lessThan fieldA fieldB then (if asc then -1 else 1)%Z
  else if lessThan fieldB fieldA then (if asc then 1 else -1)%Z
  else 0%Z.

(** The chunk loop of [query], over the chunk indices still to visit, with
    the loop variables [results] and [skipped] passed along. *)
Fixpoint queryLoop (svc : service) (tableName : string) (filter : record)
    (limit : bound) (offset : nat)
    (indices : list nat) (results : list record) (skipped : nat)
  : list record * nat :=
  match indices with
  | [] => (results, skipped)
  | i :: rest =>
      if reached (length results) limit then (results, skipped)
      else
        match readChunk svc tableName i with
        | None => queryLoop svc tableName filter limit offset rest results skipped
        | Some chunkData =>
            let filteredChunk := filterData chunkData filter in
            if (skipped + length filteredChunk <=? offset)%nat then
              queryLoop svc tableName filter limit offset rest results
                        (skipped + length filteredChunk)%nat
            else
              let remainingToSkip := (offset - skipped)%nat in
              let chunkToAdd := drop remainingToSkip filteredChunk in
              let skipped' := (skipped + remainingToSkip)%nat in
              let neededCount :=
                minRemaining (length chunkToAdd) limit (length results) in
              queryLoop svc tableName filter limit offset rest
                        (results ++ take neededCount chunkToAdd) skipped'
        end
  end.

Definition defaultSort : sortSpec := {| field := "id"; direction_ := Asc |}.

Definition query (svc : service) (tableName : string) (options : QueryOptions)
  : result QueryResult :=
  let filter := default ∅ (filter options) in
  let limit := default Infinity (limit options) in
  let offset := default 0%nat (offset options) in
  let fields := default [] (fields options) in
  let sort :=
    match sort options with
    | SortOmitted => Some defaultSort
    | SortNull => None
    | SortBy spec => Some spec
    end in
  match getTableMetadata svc tableName with
  | None => tableNotFound tableName
  | Some tableMetadata =>
      let results :=
        fst (queryLoop svc tableName filter limit offset
                       (seq 0 (chunksCount tableMetadata)) [] 0%nat) in
      let results :=
        match sort with
        | Some spec => sortBy (compareBy spec) results
        | None => results
        end in
      let results := selectFields fields results in
      total ← count svc tableName filter;
      Ok {| data := results; total := total; offset_ := offset;
            limit_ := limit |}
  end.

(** The chunk loop of [getDealById]. *)
Fixpoint findDeal (svc : service) (tableName : string) (id : value)
    (indices : list nat) : option record :=
  match indices with
  | [] => None
  | i :: rest =>
      match readChunk svc tableName i with
      | None => findDeal svc tableName id rest
      | Some chunkData =>
          match List.find (fun d => looseEq (get d "id") id) chunkData with
          | Some deal => Some deal
          | None => findDeal svc tableName id rest
          end
      end
  end.

Definition getDealById (svc : service) (id : value) : result record :=
  let tableName := "deals" in
  match getTableMetadata svc tableName with
  | None => tableNotFound tableName
  | Some tableMetadata =>
      match findDeal svc tableName id (seq 0 (chunksCount tableMetadata)) with
      | Some deal => Ok (transformDealToCamelCase deal)
      | None => Throw ("Deal with ID " +:+ toStr id +:+ " not found")
      end
  end.

(** The options of [getDeals]. *)
Record DealsOptions : Type := {
  page : option nat;
  pageSize : option nat;
  sortField : option string;
  sortDirection : option direction;
  filters : option record;
  searchQuery : option string
}.

Record DealsResult : Type := {
  deals : list record;
  totalCount : nat
}.

(** [v.length] *)
Definition jsLength (v : value) : value :=
  match v with
  | VArray items => VNumber (inject_Z (Z.of_nat (length items)))
  | VString s => VNumber (inject_Z (Z.of_nat (String.length s)))
  | VObject props => get props "length"
  | _ => VUndefined
  end.

(** [v && v.length > 0] *)
Definition nonEmpty (v : value) : bool :=
  truthy v && lessThan (VNumber 0) (jsLength v).

(** The object built for a range: [{gte: lo, lte: hi}], each bound only
    when it is truthy. *)
Definition rangeClause (lo hi : value) : value :=
  let o : record := ∅ in
  let o := if truthy lo then <["gte" := lo]> o else o in
  let o := if truthy hi then <["lte" := hi]> o else o in
  VObject o.

(** The translation of the UI filters into a filter of [query]. *)
Definition dealsFilter (filters : record) : record :=
  let filter : record := ∅ in
  let filter :=
    if nonEmpty (get filters "transactionTypes")
    then <["transactionType" := get filters "transactionTypes"]> filter
    else filter in
  let filter :=
    if truthy (get filters "startDate") || truthy (get filters "endDate")
    then <["announcementDate" :=
             rangeClause (get filters "startDate") (get filters "endDate")]> filter
    else filter in
  let filter :=
    if truthy (get filters "minSize") || truthy (get filters "maxSize")
    then <["transactionValue" :=
             rangeClause (get filters "minSize") (get filters "maxSize")]> filter
    else filter in
  let filter :=
    if nonEmpty (get filters "regions")
    then <["targetRegion" := get filters "regions"]> filter
    else filter in
  filter.

Definition searchFields : list string :=
  ["targetName"; "acquirerName"; "divestorName"; "dealSummary"].

Definition getDeals (svc : service) (options : DealsOptions) : result DealsResult :=
  let page := default 0%nat (page options) in
  let pageSize := default 100%nat (pageSize options) in
  let sortField := default "announcementDate" (sortField options) in
  let sortDirection := default Desc (sortDirection options) in
  let filters := default ∅ (filters options) in
  let searchQuery := default "" (searchQuery options) in
  queryResult ← query svc "deals"
    {| filter := Some (dealsFilter filters);
       limit := Some (Finite pageSize);
       offset := Some (page * pageSize)%nat;
       fields := None;
       sort := SortBy {| field := camelToSnakeCase sortField;
                         direction_ := sortDirection |} |};
  let resultData := data queryResult in
  let resultData :=
    if negb (String.eqb searchQuery "") then
      let searchLower := toLowerCase searchQuery in
      List.filter
        (fun item =>
           existsb (fun field =>
                      truthy (get item field) &&
                      strIncludes searchLower (toLowerCase (toStr (get item field))))
                   searchFields)
        resultData
    else resultData in
  Ok {| deals := map transformDealToCamelCase resultData;
        totalCount := total queryResult |}.

End Runtime.

(** ** Notions the statements are phrased with *)

(** The records chunk [i] adds to a scan: those of the array [readChunk]
    returns, none when it returns [null]. *)
Definition chunkRecords (svc : service) (tableName : string) (i : nat)
  : list record :=
  default [] (readChunk svc tableName i).

(** The chunk file of index [i] is missing or does not parse: neither of
    its two places holds a readable file that [readChunk] would open. *)
Definition chunkDamaged (svc : service) (tableName : string) (i : nat) : Prop :=
  (tableName = "deals" /\
   disk svc !! globalChunkPath svc i = Some Unparseable) \/
  ((tableName <> "deals" \/ disk svc !! globalChunkPath svc i = None) /\
   (disk svc !! tableChunkPath svc tableName i = None \/
    disk svc !! tableChunkPath svc tableName i = Some Unparseable)).

Definition takeBound {A} (limit : bound) (l : list A) : list A :=
  match limit with
  | Finite n => take n l
  | Infinity => l
  end.

(** Reading a key in the list of properties of an object literal. *)
Fixpoint assoc (k : string) (l : list (string * value)) : value :=
  match l with
  | [] => VUndefined
  | (k', v) :: l' => if String.eqb k' k then v else assoc k l'
  end.

(** The transaction value [getStatistics] reads from a deal. *)
Definition transactionValueOf (deal : record) : value :=
  pick deal "transaction_value" "transactionValue".

(** The transaction value of a deal as the statement of the average
    reads it: the snake-style field when the deal has one, the camel-style
    field otherwise. *)
Definition statedValue (deal : record) : value :=
  if isNullish (get deal "transaction_value")
  then get deal "transactionValue"
  else get deal "transaction_value".

(** The transaction values that are present and numeric. *)
Definition numericValues (deals : list record) : list Q :=
  omap (fun deal =>
          match statedValue deal with
          | VNumber q => Some q
          | _ => None
          end) deals.

(** The transaction values that are numeric and not zero. *)
Definition nonZeroValues (deals : list record) : list Q :=
  omap (fun deal =>
          match transactionValueOf deal with
          | VNumber q => if isZero q then None else Some q
          | _ => None
          end) deals.

Definition Qsum (values : list Q) : Q := foldl Qplus 0%Q values.

(** Sum over count, and 0 for no value at all. *)
Definition average (values : list Q) : Q :=
  if (0 <? length values)%nat
  then (Qsum values / inject_Z (Z.of_nat (length values)))%Q
  else 0%Q.

Definition orderingOps : list string := ["gt"; "gte"; "lt"; "lte"].

Definition knownOps : list string :=
  ["eq"; "ne"; "gt"; "gte"; "lt"; "lte"; "like"].

Section Stream.
Context `{JSRuntime}.

(** The matching records of the chunks [indices], in chunk order and in
    the order they have within each chunk. *)
Definition matchStream (svc : service) (tableName : string) (filter : record)
    (indices : list nat) : list record :=
  flat_map (fun i => filterData (chunkRecords svc tableName i) filter) indices.

(** The page [offset, offset + limit) of the matching stream of a table
    of [n] chunks. *)
Definition streamPage (svc : service) (tableName : string) (filter : record)
    (limit : bound) (offset : nat) (n : nat) : list record :=
  takeBound limit (drop offset (matchStream svc tableName filter (seq 0 n))).

End Stream.

(** ** Further operations of the service and the code around it *)

(** *** The conversion script ([convert-excel-to-json.js]) *)

Definition CHUNK_SIZE : nat := 1000.

(** [Math.ceil(n / CHUNK_SIZE)] *)
Definition ceilChunks (n : nat) : nat := (n + (CHUNK_SIZE - 1)) / CHUNK_SIZE.

(** [l.slice(start, end)] for indices that are natural numbers *)
Definition slice {A} (start end_ : nat) (l : list A) : list A :=
  take (end_ - start) (drop start l).

Definition totalChunks (jsonData : list record) : nat :=
  ceilChunks (length jsonData).

(** The rows the script puts in the chunk of index [i]. *)
Definition chunkOf (jsonData : list record) (i : nat) : list record :=
  let start := i * CHUNK_SIZE in
  let end_ := Nat.min (start + CHUNK_SIZE) (length jsonData) in
  slice start end_ jsonData.

(** The name of the file the script writes the chunk of index [i] to. *)
Definition scriptChunkPath (outputDir : string) (i : nat) : string :=
  pathJoin [outputDir; "deals_chunk_" +:+ pretty i +:+ ".json"].

(** The chunk loop of the script: the files written, in order, each with
    the rows serialised into it. *)
Definition scriptWrites (outputDir : string) (jsonData : list record)
  : list (string * list record) :=
  map (fun i => (scriptChunkPath outputDir i, chunkOf jsonData i))
      (seq 0 (totalChunks jsonData)).

(** *** [check-data-loaded] (the handler of the main process) *)

(** [dbService] is [null] until the service is constructed; the [catch]
    of the handler answers [false]. *)
Definition checkDataLoaded (dbService : option service) : bool :=
  match dbService with
  | None => false
  | Some svc =>
      match getStatistics svc with
      | Ok stats => (0 <? totalDeals stats)%nat
      | Throw _ => false
      end
  end.

(** *** [getFilterOptions] *)

(** [set.add(v)] on a [Set], kept in insertion order. *)
Definition setAdd (set : list value) (v : value) : list value :=
  if existsb (strictEq v) set then set else set ++ [v].

(** [if (v) set.add(v)] *)
Definition addIfTruthy (set : list value) (v : value) : list value :=
  if truthy v then setAdd set v else set.

Record filterSets : Type := {
  transactionTypesSet : list value;
  regionsSet : list value;
  industriesSet : list value
}.

(** The [forEach] callback of [getFilterOptions]. *)
Definition collectDeal (sets : filterSets) (deal : record) : filterSets :=
  let transactionType := pick deal "transaction_type" "transactionType" in
  let region := pick deal "target_region" "targetRegion" in
  let industry1 := pick deal "target_industry_1" "targetIndustry1" in
  let industry2 := pick deal "target_industry_2" "targetIndustry2" in
  {| transactionTypesSet := addIfTruthy (transactionTypesSet sets) transactionType;
     regionsSet := addIfTruthy (regionsSet sets) region;
     industriesSet :=
       addIfTruthy (addIfTruthy (industriesSet sets) industry1) industry2 |}.

Record FilterOptions : Type := {
  transactionTypes : list value;
  regions : list value;
  industries : list value
}.

(** *** [getDealsLight] *)

(** The object built for one deal by [getDealsLight]. *)
Definition lightDeal (deal : record) : record :=
  list_to_map
    [("id", get deal "id");
     ("targetName", jsOr (get deal "targetName") (get deal "target_name"));
     ("transactionValue",
      jsOr (get deal "transactionValue") (get deal "transaction_value"));
     ("dateAnnounced", jsOr (get deal "dateAnnounced") (get deal "date_announced"));
     ("transactionType",
      jsOr (get deal "transactionType") (get deal "transaction_type"));
     ("status", get deal "status")].

(** [Math.min(Math.ceil((offset + limit) / CHUNK_SIZE), chunksCount)] *)
Definition lightEndChunk (offset : nat) (limit : bound) (chunksCount : nat) : nat :=
  match limit with
  | Finite l => Nat.min (ceilChunks (offset + l)) chunksCount
  | Infinity => chunksCount
  end.

(** ** Further notions the statements are phrased with *)

(** The number in a field, 0 when the field holds no number. *)
Definition numberOf (v : value) : Q :=
  match v with VNumber q => q | _ => 0%Q end.

(** The deal has the status [name]. *)
Definition hasStatus (name : string) (deal : record) : bool :=
  strictEq (pick deal "transaction_status" "transactionStatus") (VString name).

(** The larger of the running maximum and the transaction value of a
    deal, when that value is a number other than zero. *)
Definition maxWith (largest : Q) (deal : record) : Q :=
  match nonZeroValues [deal] with
  | value :: _ => if Qlt_bool largest value then value else largest
  | [] => largest
  end.

(** [result] collects the distinct truthy values among [values]: it holds
    only truthy values taken from [values], and every non-empty string
    among [values]. *)
Definition collects (values result : list value) : Prop :=
  (forall x, In x result -> truthy x = true /\ In x values) /\
  (forall s, In (VString s) values -> s <> "" -> In (VString s) result).

(** The chunks of the deals table have the standard sizes: every chunk
    but the last adds exactly [CHUNK_SIZE] records to a scan, the last one
    at most that many. *)
Definition standardChunks (svc : service) (chunksCount : nat) : Prop :=
  forall i, (i < chunksCount)%nat ->
    (length (chunkRecords svc "deals" i) <= CHUNK_SIZE)%nat /\
    ((S i < chunksCount)%nat -> length (chunkRecords svc "deals" i) = CHUNK_SIZE).

(** A service over a data directory that holds the chunk files the
    conversion script wrote and nothing else. *)
Definition freshlyConverted (dir : string) (tables : gmap string TableMetadata)
    (jsonData : list record) : service :=
  {| dataDirectory := dir; metadata := tables;
     disk := list_to_map
               (map (fun '(path, rows) => (path, Json rows))
                    (scriptWrites dir jsonData)) |}.

(** No character of [s] is an upper-case ASCII letter. *)
Fixpoint noUpper (s : string) : bool :=
  match s with
  | EmptyString => true
  | String c rest => negb (isUpper c) && noUpper rest
  end.

(** How many characters of [s] are upper-case ASCII letters. *)
Fixpoint countUpper (s : string) : nat :=
  match s with
  | EmptyString => 0
  | String c rest => ((if isUpper c then 1 else 0) + countUpper rest)%nat
  end.

(** The options of [getDeals] with the search text replaced. *)
Definition withSearch (options : DealsOptions) (search : option string)
  : DealsOptions :=
  {| page := page options; pageSize := pageSize options;
     sortField := sortField options; sortDirection := sortDirection options;
     filters := filters options; searchQuery := search |}.

Section FurtherRuntime.
Context `{JSRuntime}.

(** The comparison of [Array.prototype.sort] without a comparator: by the
    strings of the elements, character code by character code. *)
Definition defaultCompare (a b : value) : Z :=
  if strLtb (toStr a) (toStr b) then (-1)%Z
  else if strLtb (toStr b) (toStr a) then 1%Z
  else 0%Z.

Definition getFilterOptions (svc : service) : result FilterOptions :=
  let tableName := "deals" in
  deals ← getAllData svc tableName;
  let sets :=
    foldl collectDeal
          {| transactionTypesSet := []; regionsSet := []; industriesSet := [] |}
          deals in
  Ok {| transactionTypes := sortBy defaultCompare (transactionTypesSet sets);
        regions := sortBy defaultCompare (regionsSet sets);
        industries := sortBy defaultCompare (industriesSet sets) |}.

Definition getDealsLight (svc : service) (options : QueryOptions) : QueryResult :=
  let limit := default (Finite 100) (limit options) in
  let offset := default 0%nat (offset options) in
  let filter := default ∅ (filter options) in
  let tableName := "deals" in
  match getTableMetadata svc tableName with
  | None => {| data := []; total := 0; offset_ := offset; limit_ := limit |}
  | Some tableMetadata =>
      let startChunk := (offset / CHUNK_SIZE)%nat in
      let endChunk := lightEndChunk offset limit (chunksCount tableMetadata) in
      let allData :=
        foldl (fun allData i =>
                 allData ++ default [] (readChunk svc tableName i))
              [] (seq startChunk (endChunk - startChunk)) in
      let allData :=
        if (0 <? keysLength filter)%nat then filterData allData filter
        else allData in
      let lightData := map lightDeal allData in
      let paginatedData :=
        takeBound limit (drop (offset mod CHUNK_SIZE) lightData) in
      {| data := paginatedData; total := length lightData; offset_ := offset;
         limit_ := limit |}
  end.

End FurtherRuntime.

(** ** A host and sample data for the examples *)

Fixpoint asciiLower (s : string) : string :=
  match s with
  | EmptyString => EmptyString
  | String c rest => String (lowerAscii c) (asciiLower rest)
  end.

(** A host for ASCII text and for data whose compared fields have one
    type: no example below reaches a coercion or formats a fraction. *)
Definition basicToStr (v : value) : string :=
  match v with
  | VUndefined => "undefined"
  | VNull => "null"
  | VBool b => if b then "true" else "false"
  | VNumber q => pretty (Qnum q / Zpos (Qden q))%Z
  | VString s => s
  | VArray _ => ""
  | VObject _ => "[object Object]"
  end.

Definition asciiHost : JSRuntime :=
  {| toLowerCase := asciiLower;
     toStr := basicToStr;
     coerceEq := fun _ _ => false;
     coerceLt := fun _ _ => false |}.

Definition num (n : Z) : value := VNumber (inject_Z n).

(** A record [{id: n}] *)
Definition idRecord (n : nat) : record := {[ "id" := num (Z.of_nat n) ]}.

(** One table, one chunk file holding [records]. *)
Definition oneChunk (table : string) (rows : nat) (records : list record)
  : service :=
  {| dataDirectory := "data";
     metadata := {[ table := {| name := table; chunksCount := 1;
                                totalRows := rows; columns := ["id"] |} ]};
     disk := {[ pathJoin ["data"; table; "chunk_0.json"] := Json records ]} |}.

(** 51 records with ids 51, 50, ..., 1. *)
Definition descendingIds : service :=
  oneChunk "t" 51 (map idRecord (rev (seq 1 51))).

(** Metadata that announces 5 rows over a chunk that holds one. *)
Definition staleMetadata : service := oneChunk "t" 5 [idRecord 1].

(** Two records stored with the larger id first. *)
Definition twoRecords : service := oneChunk "t" 2 [idRecord 2; idRecord 1].

Definition valueRecord (v : value) : record := {[ "transaction_value" := v ]}.

(** Deals with the transaction values 10, 20, null, 30. *)
Definition fourDeals : service :=
  oneChunk "deals" 4
    [valueRecord (num 10); valueRecord (num 20); valueRecord VNull;
     valueRecord (num 30)].

(** Deals with the transaction values 0 and 10. *)
Definition zeroValueDeal : service :=
  oneChunk "deals" 2 [valueRecord (num 0); valueRecord (num 10)].

(** A table of two chunks whose first chunk file does not parse. *)
Definition corruptFirstChunk : service :=
  {| dataDirectory := "data";
     metadata := {[ "t" := {| name := "t"; chunksCount := 2; totalRows := 2;
                              columns := ["id"] |} ]};
     disk := {[ pathJoin ["data"; "t"; "chunk_0.json"] := Unparseable;
                pathJoin ["data"; "t"; "chunk_1.json"] := Json [idRecord 7] ]} |}.

(** A deals table with the ids 1 and 2. *)
Definition twoDeals : service := oneChunk "deals" 2 [idRecord 1; idRecord 2].

(** A record that has the fields of the output convention and no other. *)
Definition canonicalDeal : record :=
  list_to_map (map (fun k => (k, VString k)) canonicalKeys).

(** A record with a date, and a range filter on that date. *)
Definition datedRecord : record :=
  {[ "announcementDate" := VString "2020-01-01" ]}.

Definition sinceFilter : record :=
  {[ "announcementDate" := VObject {[ "gte" := VString "2019-01-01" ]} ]}.

(** A table of two chunks: the ids 1 and 2, then [second]. *)
Definition twoChunks (second : list record) : service :=
  {| dataDirectory := "data";
     metadata := {[ "t" := {| name := "t"; chunksCount := 2; totalRows := 3;
                              columns := ["id"] |} ]};
     disk := {[ pathJoin ["data"; "t"; "chunk_0.json"] :=
                  Json [idRecord 1; idRecord 2];
                pathJoin ["data"; "t"; "chunk_1.json"] := Json second ]} |}.

(** UI filters with a size range, and a record inside the range. *)
Definition sizeFilters : record := {[ "minSize" := num 5; "maxSize" := num 50 ]}.

Definition sizedRecord : record := {[ "transactionValue" := num 10 ]}.

(** UI filters with a start date. *)
Definition dateFilters : record := {[ "startDate" := VString "2020-01-01" ]}.

Definition dealsOptions (uiFilters : option record) : DealsOptions :=
  {| page := None; pageSize := None; sortField := None; sortDirection := None;
     filters := uiFilters; searchQuery := None |}.

(** The metadata that [oneChunk] and [twoChunks] give a table. *)
Definition sampleMetadata (table : string) (chunks rows : nat) : TableMetadata :=
  {| name := table; chunksCount := chunks; totalRows := rows; columns := ["id"] |}.

Definition idDescending : sortSpec := {| field := "id"; direction_ := Desc |}.


(** The options with the [sort] entry replaced. *)
Definition withSort (options : QueryOptions) (sort : sortOption)
  : QueryOptions :=
  {| filter := filter options; limit := limit options;
     offset := offset options; fields := fields options; sort := sort |}.

Definition sortedBy (spec : sortSpec) : QueryOptions :=
  {| filter := None; limit := None; offset := None; fields := None;
     sort := SortBy spec |}.

(** The ids of a page, in its order. *)
Definition ids (l : list record) : list value := map (fun r => get r "id") l.

Definition pageOptions (offset limit : nat) : QueryOptions :=
  {| filter := None; limit := Some (Finite limit); offset := Some offset;
     fields := None; sort := SortOmitted |}.

(** ** Theorems *)

Section Theorems.
Context `{JSRuntime}.

Lemma filterData_singleton (data : list record) (field : string) (v : value) :
  filterData data {[ field := v ]} =
  List.filter (fun item => matchesClause item field v) data.
Proof.
  unfold filterData, keysLength, matchesFilter, entries.
  rewrite map_to_list_singleton. simpl.
  apply List.filter_ext. intros item. apply andb_true_r.
Qed.

Lemma filter_all_true {A} (p : A -> bool) (l : list A) :
  (forall x, p x = true) -> List.filter p l = l.
Proof.
  intros Hp. induction l as [|x l IH]; simpl; [done|].
  by rewrite Hp, IH.
Qed.

(** C3: a membership clause with an empty literal set matches every
    record, so filtering any record list with [{field: []}] returns the
    list unchanged. *)
Theorem empty_membership_matches_all (data : list record) (field : string) :
  (forall item, matchesClause item field (VArray []) = true) /\
  filterData data {[ field := VArray [] ]} = data.
Proof.
  split; [done|].
  rewrite filterData_singleton. by apply filter_all_true.
Qed.

Lemma evalOperator_ordering (fieldValue val : value) (op : string) :
  In op orderingOps ->
  isNumber fieldValue && isNumber val = false ->
  evalOperator fieldValue op val = false.
Proof.
  intros Hop Hnum.
  assert (Hcases : forall (f : Q -> Q -> bool),
             match fieldValue, val with
             | VNumber a, VNumber b => f a b
             | _, _ => false
             end = false).
  { intros f. destruct fieldValue, val; try reflexivity; discriminate Hnum. }
  simpl in Hop.
  destruct Hop as [<-|[<-|[<-|[<-|[]]]]]; unfold evalOperator; simpl;
    apply Hcases.
Qed.

Lemma matchesFilter_clause (filter item : record) (field : string) (v : value) :
  filter !! field = Some v ->
  matchesFilter filter item = true ->
  matchesClause item field v = true.
Proof.
  intros Hin Hall. unfold matchesFilter in Hall.
  rewrite forallb_forall in Hall.
  apply (Hall (field, v)).
  apply list_elem_of_In, elem_of_map_to_list, Hin.
Qed.

Lemma keysLength_zero (o : record) : keysLength o = 0%nat -> o = ∅.
Proof.
  unfold keysLength. intros Hlen.
  apply map_to_list_empty_iff. by apply nil_length_inv.
Qed.

Lemma filterData_matches (data : list record) (filter item : record)
    (field : string) (v : value) :
  filter !! field = Some v ->
  In item (filterData data filter) ->
  matchesFilter filter item = true.
Proof.
  intros Hin. unfold filterData.
  destruct (keysLength filter =? 0)%nat eqn:Hlen.
  - apply Nat.eqb_eq, keysLength_zero in Hlen. subst filter.
    by rewrite lookup_empty in Hin.
  - intros Hitem. by apply List.filter_In in Hitem as [_ ?].
Qed.

(** C4: an ordering clause (gt, gte, lt, lte) in which the record's field
    value or the comparison value is not a number evaluates to non-match:
    the operator yields [false], so does the whole filter, and the record
    is left out of the filtered list.  Every function involved is total:
    no error is raised. *)
Theorem ordering_clause_non_numeric_is_non_match
    (data : list record) (filter ops item : record)
    (field op : string) (val : value) :
  filter !! field = Some (VObject ops) ->
  ops !! op = Some val ->
  In op orderingOps ->
  isNumber (get item field) = false \/ isNumber val = false ->
  evalOperator (get item field) op val = false /\
  matchesFilter filter item = false /\
  ~ In item (filterData data filter).
Proof.
  intros Hfield Hop Hord Hnum.
  assert (Hev : evalOperator (get item field) op val = false).
  { apply evalOperator_ordering; [done|].
    destruct Hnum as [-> | ->]; [done | apply andb_false_r]. }
  assert (Hcl : matchesClause item field (VObject ops) = false).
  { simpl. apply not_true_is_false. intros Hall.
    rewrite forallb_forall in Hall.
    specialize (Hall (op, val)). simpl in Hall.
    rewrite Hev in Hall. discriminate Hall.
    apply list_elem_of_In, elem_of_map_to_list, Hop. }
  assert (Hmf : matchesFilter filter item = false).
  { apply not_true_is_false. intros Hm.
    apply (matchesFilter_clause _ _ _ _ Hfield) in Hm. congruence. }
  split; [done|]. split; [done|].
  intros Hitem. apply (filterData_matches _ _ _ _ _ Hfield) in Hitem. congruence.
Qed.

(** The date range of the UI reaches [query] as an ordering clause on a
    string: it matches no record. *)
Lemma dealsFilter_startDate_matches_nothing (data : list record) (date : string) :
  date <> "" ->
  filterData data (dealsFilter {[ "startDate" := VString date ]}) = [].
Proof.
  intros Hdate.
  assert (Htruthy : truthy (VString date) = true).
  { simpl. destruct (String.eqb_spec date ""); [done|reflexivity]. }
  assert (Hf : dealsFilter {[ "startDate" := VString date ]} =
               {[ "announcementDate" := VObject {[ "gte" := VString date ]} ]}).
  { unfold dealsFilter, nonEmpty, get, rangeClause.
    rewrite !lookup_singleton_ne by done. rewrite lookup_singleton_eq.
    simpl truthy at 1 3 4 5 6. rewrite Htruthy. simpl.
    reflexivity. }
  rewrite Hf, filterData_singleton.
  induction data as [|item data IH]; [done|]. simpl List.filter.
  unfold entries at 1. rewrite map_to_list_singleton. simpl forallb at 1.
  rewrite (evalOperator_ordering _ _ "gte");
    [ apply IH | simpl; tauto | apply andb_false_r ].
Qed.

Lemma evalOperator_unknown (fieldValue val : value) (op : string) :
  ~ In op knownOps -> evalOperator fieldValue op val = true.
Proof.
  intros Hop. unfold evalOperator.
  repeat match goal with
  | |- (if String.eqb op ?k then _ else _) = true =>
      destruct (String.eqb_spec op k) as [->|_];
        [ exfalso; apply Hop; simpl; tauto | ]
  end.
  reflexivity.
Qed.

(** C10: an operator-map clause whose operator key is none of eq, ne, gt,
    gte, lt, lte, like evaluates to a match for every record: the operator
    yields [true], and a filter made of that clause alone returns the
    record list unchanged. *)
Theorem unknown_operator_matches_all
    (data : list record) (field op : string) (val : value) :
  ~ In op knownOps ->
  (forall fieldValue, evalOperator fieldValue op val = true) /\
  (forall item, matchesClause item field (VObject {[ op := val ]}) = true) /\
  filterData data {[ field := VObject {[ op := val ]} ]} = data.
Proof.
  intros Hop.
  assert (Hcl : forall item,
             matchesClause item field (VObject {[ op := val ]}) = true).
  { intros item. simpl. unfold entries. rewrite map_to_list_singleton. simpl.
    by rewrite evalOperator_unknown. }
  split; [intros; by apply evalOperator_unknown|]. split; [done|].
  rewrite filterData_singleton. by apply filter_all_true.
Qed.

(** *** Unknown table, unknown id *)

Lemma findDeal_none (svc : service) (id : value) (indices : list nat) :
  (forall i chunk d,
      In i indices -> readChunk svc "deals" i = Some chunk ->
      In d chunk -> looseEq (get d "id") id = false) ->
  findDeal svc "deals" id indices = None.
Proof.
  induction indices as [|i rest IH]; intros Hno; [done|]. simpl.
  destruct (readChunk svc "deals" i) as [chunk|] eqn:Hread.
  - destruct (List.find _ chunk) as [deal|] eqn:Hfind.
    + apply List.find_some in Hfind as [Hin Heq].
      rewrite (Hno i chunk deal) in Heq; [discriminate | by left | done | done].
    + apply IH. intros i' chunk' d Hi'. apply Hno. by right.
  - apply IH. intros i' chunk' d Hi'. apply Hno. by right.
Qed.

(** For a name that is neither a table of the metadata nor a member of
    [Object.prototype], [query] throws the error "Table '<name>' not
    found"; for an id that no record of the deals table matches,
    [getDealById] throws as well (the deal-not-found error, or the
    table-not-found one when there is no deals table). *)
Lemma not_found_is_thrown
    (svc : service) (tableName : string) (options : QueryOptions) (id : value) :
  (getTableMetadata svc tableName = None ->
   query svc tableName options = Throw ("Table '" +:+ tableName +:+ "' not found") /\
   forall res, query svc tableName options <> Ok res) /\
  ((forall tableMetadata i chunk d,
       getTableMetadata svc "deals" = Some tableMetadata ->
       (i < chunksCount tableMetadata)%nat ->
       readChunk svc "deals" i = Some chunk ->
       In d chunk -> looseEq (get d "id") id = false) ->
   (getDealById svc id = Throw ("Deal with ID " +:+ toStr id +:+ " not found") \/
    getDealById svc id = Throw "Table 'deals' not found") /\
   forall deal, getDealById svc id <> Ok deal).
Proof.
  split.
  - intros Hnone. unfold query. rewrite Hnone. by split.
  - intros Hno. unfold getDealById.
    destruct (getTableMetadata svc "deals") as [tm|] eqn:Hmeta.
    + rewrite findDeal_none; [split; [by left | done]|].
      intros i chunk d Hi. apply (Hno tm); [done|].
      apply in_seq in Hi. lia.
    + split; [by right | done].
Qed.

(** C6: [query] does not reject every table name that the loaded
    metadata lacks: for a name that the metadata does not have and
    [Object.prototype] has, such as [constructor] or [toString], the
    lookup [this.metadata[tableName]] answers the inherited member, the
    throw is skipped, and [query] returns the empty success result with
    total 0. *)
Theorem inherited_name_is_not_rejected
    (svc : service) (tableName : string) (options : QueryOptions) :
  metadata svc !! tableName = None ->
  In tableName objectPrototypeKeys ->
  query svc tableName options =
  Ok {| data := []; total := 0;
        offset_ := default 0%nat (offset options);
        limit_ := default Infinity (limit options) |}.
Proof.
  intros Hown Hin.
  assert (Hmeta : getTableMetadata svc tableName = Some inheritedMetadata).
  { unfold getTableMetadata. rewrite Hown.
    assert (existsb (String.eqb tableName) objectPrototypeKeys = true) as ->;
      [|done].
    apply existsb_exists. exists tableName.
    split; [done | apply String.eqb_refl]. }
  unfold query, count. rewrite Hmeta.
  cbn [inheritedMetadata chunksCount totalRows seq queryLoop fst foldl].
  assert (Hsorted : forall spec : sortSpec,
             sortBy (compareBy spec) ([] : list record) = []) by done.
  assert (Hselect : forall wanted, selectFields wanted [] = []).
  { intros wanted. unfold selectFields. by destruct (0 <? length wanted)%nat. }
  rewrite andb_false_r.
  by destruct (sort options); rewrite ?Hsorted, Hselect.
Qed.

(** *** Record schema adapter *)

Lemma get_list_to_map (l : list (string * value)) (k : string) :
  get (list_to_map l) k = assoc k l.
Proof.
  unfold get. induction l as [|[k' v] l IH]; simpl.
  - by rewrite lookup_empty.
  - rewrite lookup_insert. destruct (String.eqb_spec k' k) as [->|Hne].
    + by rewrite decide_True.
    + by rewrite decide_False.
Qed.

Lemma jsOr_undefined (v : value) : jsOr VUndefined v = v.
Proof. reflexivity. Qed.

Lemma get_outside (r : record) (k : string) :
  dom r = list_to_set canonicalKeys -> k ∉ canonicalKeys -> get r k = VUndefined.
Proof.
  intros Hdom Hk. unfold get.
  rewrite (not_elem_of_dom_1 r k); [done|].
  by rewrite Hdom, elem_of_list_to_set.
Qed.

(** An object literal that copies every field of [r] is [r]. *)
Lemma list_to_map_copy (r : record) (keys : list string) :
  dom r = list_to_set keys ->
  list_to_map (map (fun k => (k, get r k)) keys) = r.
Proof.
  intros Hdom. apply map_eq. intros i.
  destruct (decide (i ∈ keys)) as [Hin|Hout].
  - assert (Hsome : is_Some (r !! i)).
    { apply elem_of_dom. by rewrite Hdom, elem_of_list_to_set. }
    destruct Hsome as [v Hv]. rewrite Hv.
    apply elem_of_list_to_map_1'.
    + intros y Hy. apply list_elem_of_fmap in Hy as (k & Heq & _).
      injection Heq as <- ->. unfold get. by rewrite Hv.
    + apply list_elem_of_fmap. exists i. split; [|done].
      unfold get. by rewrite Hv.
  - rewrite not_elem_of_list_to_map_1.
    + symmetry. apply not_elem_of_dom_1. by rewrite Hdom, elem_of_list_to_set.
    + rewrite <- list_fmap_compose. simpl. by rewrite list_fmap_id.
Qed.

Ltac not_a_key :=
  let Hin := fresh "Hin" in
  intros Hin;
  repeat (apply elem_of_cons in Hin as [Hin|Hin]; [discriminate Hin|]);
  by apply elem_of_nil in Hin.

(** C8: the adapter is idempotent: normalising a normalised record gives
    the normalised record back, and a record that already has the fields
    of the output convention, and only those, is returned as it is. *)
Theorem transformDealToCamelCase_idempotent :
  (forall deal : record,
      transformDealToCamelCase (transformDealToCamelCase deal) =
      transformDealToCamelCase deal) /\
  (forall canonical : record,
      dom canonical = list_to_set canonicalKeys ->
      transformDealToCamelCase canonical = canonical).
Proof.
  split.
  - intros deal. unfold transformDealToCamelCase.
    cut (dealProperties (list_to_map (dealProperties deal)) = dealProperties deal);
      [by intros ->|].
    remember (dealProperties deal) as props eqn:Hprops.
    unfold dealProperties, pick. rewrite !get_list_to_map.
    subst props. unfold dealProperties.
    cbn [assoc String.eqb Ascii.eqb Bool.eqb].
    rewrite !jsOr_undefined. reflexivity.
  - intros canonical Hdom. unfold transformDealToCamelCase.
    rewrite <- (list_to_map_copy canonical canonicalKeys Hdom) at 2.
    f_equal. unfold dealProperties, pick.
    repeat match goal with
    | |- context [jsOr (get canonical ?k) _] =>
        rewrite (get_outside canonical k Hdom) by not_a_key
    end.
    rewrite !jsOr_undefined. reflexivity.
Qed.

(** *** The chunk loops *)

Lemma filterData_nil (filter : record) : filterData [] filter = [].
Proof. unfold filterData. by destruct (keysLength filter =? 0)%nat. Qed.

Lemma filterData_app (l1 l2 : list record) (filter : record) :
  filterData (l1 ++ l2) filter = filterData l1 filter ++ filterData l2 filter.
Proof.
  unfold filterData. destruct (keysLength filter =? 0)%nat; [done|].
  apply List.filter_app.
Qed.

Lemma filterData_flat_map {A} (f : A -> list record) (l : list A) (filter : record) :
  filterData (flat_map f l) filter = flat_map (fun a => filterData (f a) filter) l.
Proof.
  induction l as [|a l IH]; simpl; [apply filterData_nil|].
  by rewrite filterData_app, IH.
Qed.

Lemma getAllData_loop (svc : service) (tableName : string) (indices : list nat)
    (allData : list record) :
  foldl (fun allData i =>
           match readChunk svc tableName i with
           | Some chunkData => allData ++ chunkData
           | None => allData
           end) allData indices =
  allData ++ flat_map (chunkRecords svc tableName) indices.
Proof.
  revert allData. induction indices as [|i rest IH]; intros allData; simpl.
  - by rewrite app_nil_r.
  - rewrite IH. unfold chunkRecords at 2.
    destruct (readChunk svc tableName i); simpl; [by rewrite <- app_assoc | done].
Qed.

(** [getAllData] is the concatenation of what the chunks add. *)
Lemma getAllData_ok (svc : service) (tableName : string) (tm : TableMetadata) :
  getTableMetadata svc tableName = Some tm ->
  getAllData svc tableName =
  Ok (flat_map (chunkRecords svc tableName) (seq 0 (chunksCount tm))).
Proof. intros Hmeta. unfold getAllData. by rewrite Hmeta, getAllData_loop. Qed.

Lemma count_loop (svc : service) (tableName : string) (filter : record)
    (indices : list nat) (count : nat) :
  foldl (fun count i =>
           match readChunk svc tableName i with
           | Some chunkData => (count + length (filterData chunkData filter))%nat
           | None => count
           end) count indices =
  (count + length (matchStream svc tableName filter indices))%nat.
Proof.
  revert count. induction indices as [|i rest IH]; intros count; simpl.
  - lia.
  - rewrite IH, length_app. unfold chunkRecords.
    destruct (readChunk svc tableName i); simpl; [lia|].
    rewrite filterData_nil. simpl. lia.
Qed.

Lemma takeBound_length_lt {A} (limit : bound) (l : list A) :
  reached (length (takeBound limit l)) limit = false ->
  takeBound limit l = l.
Proof.
  destruct limit as [n|]; simpl; [|done].
  intros Hlt. apply Nat.leb_gt in Hlt. rewrite length_take in Hlt.
  apply take_ge. lia.
Qed.

Lemma takeBound_app_reached {A} (limit : bound) (l k : list A) :
  reached (length (takeBound limit l)) limit = true ->
  takeBound limit (l ++ k) = takeBound limit l.
Proof.
  destruct limit as [n|]; simpl; [|done].
  intros Hle. apply Nat.leb_le in Hle. rewrite length_take in Hle.
  rewrite take_app_le by lia. done.
Qed.

Lemma takeBound_app_more {A} (limit : bound) (l k : list A) :
  takeBound limit (l ++ k) =
  l ++ take (minRemaining (length k) limit (length l)) k \/
  reached (length (takeBound limit l)) limit = true.
Proof.
  destruct limit as [n|]; simpl.
  - destruct (Nat.le_gt_cases n (length l)) as [Hle|Hgt].
    + right. apply Nat.leb_le. rewrite length_take. lia.
    + left. rewrite take_app_ge by lia. f_equal.
      destruct (Nat.le_gt_cases (length k) (n - length l)).
      * rewrite Nat.min_l by lia. rewrite !take_ge by lia. done.
      * by rewrite Nat.min_r by lia.
  - left. by rewrite firstn_all.
Qed.

(** The loop invariant of [query]: after the chunks whose matching
    records are [seen], [skipped] is how many of them fall before the
    offset and [results] is the page cut from them. *)
Lemma queryLoop_page (svc : service) (tableName : string) (filter : record)
    (limit : bound) (offset : nat) (indices : list nat) :
  forall (seen results : list record) (skipped : nat),
    skipped = Nat.min offset (length seen) ->
    results = takeBound limit (drop offset seen) ->
    fst (queryLoop svc tableName filter limit offset indices results skipped) =
    takeBound limit
      (drop offset (seen ++ matchStream svc tableName filter indices)).
Proof.
  induction indices as [|i rest IH]; intros seen results skipped Hsk Hres.
  - simpl. by rewrite app_nil_r.
  - cbn [queryLoop matchStream flat_map].
    fold (matchStream svc tableName filter rest).
    destruct (reached (length results) limit) eqn:Hreached.
    + simpl. rewrite skipn_app. subst results.
      by rewrite takeBound_app_reached.
    + unfold chunkRecords.
      destruct (readChunk svc tableName i) as [chunkData|]; simpl default.
      2:{ rewrite filterData_nil. simpl. by apply IH. }
      set (matched := filterData chunkData filter).
      rewrite app_assoc.
      destruct (skipped + length matched <=? offset)%nat eqn:Hskip.
      * apply Nat.leb_le in Hskip. apply IH.
        { rewrite length_app. lia. }
        destruct (Nat.le_gt_cases (length seen) offset) as [Hle|Hgt].
        -- rewrite Hres, !drop_ge; [done | rewrite length_app; lia | lia].
        -- assert (Hnil : matched = []) by (apply nil_length_inv; lia).
           by rewrite Hnil, app_nil_r.
      * apply Nat.leb_gt in Hskip. apply IH.
        { rewrite length_app. lia. }
        rewrite skipn_app.
        replace (offset - skipped)%nat with (offset - length seen)%nat by lia.
        rewrite Hres in Hreached.
        destruct (takeBound_app_more limit (drop offset seen)
                    (drop (offset - length seen) matched)) as [->|Hr];
          [|congruence].
        rewrite Hres, (takeBound_length_lt _ _ Hreached). done.
Qed.

(** Before sorting and field selection, the loop of [query] has collected
    the page [offset, offset + limit) of the matching stream. *)
Lemma queryLoop_streamPage (svc : service) (tableName : string) (filter : record)
    (limit : bound) (offset n : nat) :
  fst (queryLoop svc tableName filter limit offset (seq 0 n) [] 0%nat) =
  streamPage svc tableName filter limit offset n.
Proof.
  unfold streamPage.
  rewrite (queryLoop_page _ _ _ _ _ _ [] [] 0%nat).
  - reflexivity.
  - simpl. lia.
  - rewrite drop_nil. destruct limit; simpl; [by rewrite take_nil | done].
Qed.

Lemma insertBy_perm {A} (cmp : A -> A -> Z) (x : A) (l : list A) :
  Permutation (insertBy cmp x l) (x :: l).
Proof.
  induction l as [|y l IH]; simpl; [done|].
  destruct (cmp x y <=? 0)%Z; [done|].
  rewrite IH. apply perm_swap.
Qed.

Lemma sortBy_perm {A} (cmp : A -> A -> Z) (l : list A) :
  Permutation (sortBy cmp l) l.
Proof.
  induction l as [|x l IH]; simpl; [done|].
  rewrite insertBy_perm. by constructor.
Qed.

(** What [query] returns for a table it knows. *)
Lemma query_ok (svc : service) (tableName : string) (tm : TableMetadata)
    (options : QueryOptions) :
  getTableMetadata svc tableName = Some tm ->
  let filter := default ∅ (filter options) in
  let limit := default Infinity (limit options) in
  let offset := default 0%nat (offset options) in
  let page := streamPage svc tableName filter limit offset (chunksCount tm) in
  query svc tableName options =
  Ok {| data :=
          selectFields (default [] (fields options))
            match sort options with
            | SortOmitted => sortBy (compareBy defaultSort) page
            | SortNull => page
            | SortBy spec => sortBy (compareBy spec) page
            end;
        total :=
          if (keysLength filter =? 0)%nat && negb (totalRows tm =? 0)%nat
          then totalRows tm
          else length (matchStream svc tableName filter (seq 0 (chunksCount tm)));
        offset_ := offset;
        limit_ := limit |}.
Proof.
  intros Hmeta. simpl. unfold query, count. rewrite Hmeta.
  rewrite queryLoop_streamPage.
  destruct (_ && _); simpl; [|rewrite count_loop; simpl];
    by destruct (sort options).
Qed.

(** *** Damaged chunks *)

Lemma readChunk_damaged (svc : service) (tableName : string) (k : nat) :
  chunkDamaged svc tableName k -> readChunk svc tableName k = None.
Proof.
  unfold chunkDamaged, readChunk, readChunkTry, existsSync, parseFile.
  intros [[-> Hglobal] | [Hnot Hlocal]].
  - by rewrite Hglobal.
  - assert (Hfirst : String.eqb tableName "deals" &&
                     match disk svc !! globalChunkPath svc k with
                     | Some _ => true
                     | None => false
                     end = false).
    { destruct Hnot as [Hne | ->]; [|apply andb_false_r].
      by destruct (String.eqb_spec tableName "deals"). }
    rewrite Hfirst. by destruct Hlocal as [-> | ->].
Qed.

(** C5, as the code has it: when the chunk file of index [k] is missing
    or does not parse, [readChunk] raises nothing and returns [null], not
    an empty array; both the full scan and a query over all chunks skip
    that chunk and still return the records of every chunk other than
    [k]. *)
Theorem damaged_chunk_reads_null_and_is_skipped
    (svc : service) (tableName : string) (tm : TableMetadata) (k : nat) :
  getTableMetadata svc tableName = Some tm ->
  chunkDamaged svc tableName k ->
  readChunk svc tableName k = None /\
  (exists all,
      getAllData svc tableName = Ok all /\
      forall i chunk r,
        (i < chunksCount tm)%nat -> i <> k ->
        readChunk svc tableName i = Some chunk -> In r chunk -> In r all) /\
  (forall filter sort, exists res,
      query svc tableName
            {| filter := filter; limit := None; offset := None;
               fields := None; sort := sort |} = Ok res /\
      forall i chunk r,
        (i < chunksCount tm)%nat -> i <> k ->
        readChunk svc tableName i = Some chunk ->
        In r (filterData chunk (default ∅ filter)) -> In r (data res)).
Proof.
  intros Hmeta Hbad.
  split; [by apply readChunk_damaged|]. split.
  - eexists. split; [by apply getAllData_ok|].
    intros i chunk r Hi _ Hread Hr.
    apply in_flat_map. exists i. split; [apply in_seq; lia|].
    unfold chunkRecords. by rewrite Hread.
  - intros filter sort. eexists. split; [by apply query_ok|].
    intros i chunk r Hi _ Hread Hr. simpl.
    assert (Hpage : In r (streamPage svc tableName (default ∅ filter) Infinity 0
                                     (chunksCount tm))).
    { unfold streamPage, matchStream. simpl. apply in_flat_map.
      exists i. split; [apply in_seq; lia|].
      unfold chunkRecords. by rewrite Hread. }
    unfold selectFields. simpl.
    destruct sort; [|done|];
      by apply (Permutation_in _ (Permutation_sym (sortBy_perm _ _))).
Qed.

(** *** The total of a query *)

(** C2, as the code has it: for a filter with at least one clause, and
    for the empty filter when the metadata records no row count, [total]
    is the number of records of [getAllData] that match the filter; for
    the empty filter and a recorded row count, [total] is that recorded
    count, whatever the chunks hold. *)
Theorem query_total_is_count_or_recorded_rows
    (svc : service) (tableName : string) (tm : TableMetadata)
    (options : QueryOptions) :
  getTableMetadata svc tableName = Some tm ->
  exists res all,
    query svc tableName options = Ok res /\
    getAllData svc tableName = Ok all /\
    total res =
      if (keysLength (default ∅ (filter options)) =? 0)%nat &&
         negb (totalRows tm =? 0)%nat
      then totalRows tm
      else length (filterData all (default ∅ (filter options))).
Proof.
  intros Hmeta. eexists. eexists.
  split; [by apply query_ok|]. split; [by apply getAllData_ok|].
  simpl. destruct (_ && _); [done|].
  by rewrite filterData_flat_map.
Qed.

(** *** Sorting *)

Lemma list_filter_sublist {A} (p : A -> bool) (l : list A) :
  sublist (List.filter p l) l.
Proof.
  induction l as [|x l IH]; simpl; [constructor|].
  destruct (p x); by constructor.
Qed.

Lemma filterData_sublist (data : list record) (filter : record) :
  sublist (filterData data filter) data.
Proof.
  unfold filterData. destruct (keysLength filter =? 0)%nat; [done|].
  apply list_filter_sublist.
Qed.

Lemma insertBy_strongly_sorted {A} (cmp : A -> A -> Z) (R : A -> A -> Prop)
    (P : A -> Prop) (x : A) (l : list A) :
  (forall a b c, R a b -> R b c -> R a c) ->
  (forall a b, P a -> P b -> (cmp a b <=? 0)%Z = true -> R a b) ->
  (forall a b, P a -> P b -> (cmp a b <=? 0)%Z = false -> R b a) ->
  P x -> Forall P l -> StronglySorted R l ->
  StronglySorted R (insertBy cmp x l).
Proof.
  intros Htrans Hle Hgt Hx HP Hsorted.
  induction l as [|y l IH]; simpl.
  - repeat constructor.
  - apply Forall_cons in HP as [Hy HP].
    apply StronglySorted_inv in Hsorted as [Hsorted Hall].
    destruct (cmp x y <=? 0)%Z eqn:Hcmp.
    + constructor; [by constructor|].
      constructor; [by apply Hle|].
      eapply List.Forall_impl; [|exact Hall]. intros z Hz.
      eapply Htrans; [by apply Hle | done].
    + constructor; [by apply IH|].
      eapply Permutation_Forall; [symmetry; apply insertBy_perm|].
      constructor; [by apply Hgt | done].
Qed.

Lemma sortBy_strongly_sorted {A} (cmp : A -> A -> Z) (R : A -> A -> Prop)
    (P : A -> Prop) (l : list A) :
  (forall a b c, R a b -> R b c -> R a c) ->
  (forall a b, P a -> P b -> (cmp a b <=? 0)%Z = true -> R a b) ->
  (forall a b, P a -> P b -> (cmp a b <=? 0)%Z = false -> R b a) ->
  Forall P l ->
  StronglySorted R (sortBy cmp l).
Proof.
  intros Htrans Hle Hgt HP. induction l as [|x l IH]; simpl; [constructor|].
  apply Forall_cons in HP as [Hx HP].
  eapply insertBy_strongly_sorted; eauto.
  eapply Permutation_Forall; [symmetry; apply sortBy_perm | done].
Qed.

Lemma compareBy_numbers (spec : sortSpec) (a b : record) (x y : Q) :
  get a (field spec) = VNumber x ->
  get b (field spec) = VNumber y ->
  (compareBy spec a b <=? 0)%Z =
  match direction_ spec with
  | Asc => Qle_bool x y
  | Desc => Qle_bool y x
  end.
Proof.
  intros Ha Hb. unfold compareBy. rewrite Ha, Hb. simpl. unfold Qlt_bool.
  destruct (direction_ spec);
    destruct (Qle_bool y x) eqn:Hyx, (Qle_bool x y) eqn:Hxy; simpl; try done.
  apply not_true_iff_false in Hyx, Hxy.
  rewrite Qle_bool_iff in Hyx, Hxy. exfalso.
  destruct (Qlt_le_dec x y) as [Hlt|Hle]; [apply Hxy, Qlt_le_weak, Hlt | tauto].
Qed.

Lemma streamPage_from_chunks (svc : service) (tableName : string) (filter : record)
    (limit : bound) (offset n : nat) (r : record) :
  In r (streamPage svc tableName filter limit offset n) ->
  exists i chunk,
    (i < n)%nat /\ readChunk svc tableName i = Some chunk /\ In r chunk.
Proof.
  unfold streamPage. intros Hin.
  assert (Hstream : In r (matchStream svc tableName filter (seq 0 n))).
  { apply list_elem_of_In. apply list_elem_of_In in Hin.
    eapply elem_of_sublist; [exact Hin|].
    transitivity (drop offset (matchStream svc tableName filter (seq 0 n)));
      [|apply sublist_drop].
    destruct limit; simpl; [apply sublist_take | done]. }
  unfold matchStream in Hstream. apply in_flat_map in Hstream as (i & Hi & Hr).
  apply in_seq in Hi. unfold chunkRecords in Hr.
  destruct (readChunk svc tableName i) as [chunk|] eqn:Hread.
  - exists i, chunk. split; [lia|]. split; [done|].
    apply list_elem_of_In. apply list_elem_of_In in Hr.
    eapply elem_of_sublist; [exact Hr|].
    apply filterData_sublist.
  - simpl in Hr. rewrite filterData_nil in Hr. done.
Qed.

Lemma sortBy_numeric_field (spec : sortSpec) (l : list record) :
  Forall (fun r => isNumber (get r (field spec)) = true) l ->
  StronglySorted
    (fun a b =>
       match direction_ spec with
       | Asc => (numberOf (get a (field spec)) <= numberOf (get b (field spec)))%Q
       | Desc => (numberOf (get b (field spec)) <= numberOf (get a (field spec)))%Q
       end)
    (sortBy (compareBy spec) l).
Proof.
  apply sortBy_strongly_sorted.
  - intros a b c. destruct (direction_ spec); intros Hab Hbc.
    + eapply Qle_trans; eauto.
    + eapply Qle_trans; eauto.
  - intros a b Ha Hb Hcmp.
    destruct (get a (field spec)) as [| | | x | | |] eqn:Hga; try discriminate.
    destruct (get b (field spec)) as [| | | y | | |] eqn:Hgb; try discriminate.
    rewrite (compareBy_numbers spec a b x y Hga Hgb) in Hcmp. simpl.
    destruct (direction_ spec); by apply Qle_bool_iff.
  - intros a b Ha Hb Hcmp.
    destruct (get a (field spec)) as [| | | x | | |] eqn:Hga; try discriminate.
    destruct (get b (field spec)) as [| | | y | | |] eqn:Hgb; try discriminate.
    rewrite (compareBy_numbers spec a b x y Hga Hgb) in Hcmp. simpl.
    destruct (direction_ spec);
      apply not_true_iff_false in Hcmp; rewrite Qle_bool_iff in Hcmp.
    + destruct (Qlt_le_dec x y) as [Hlt|Hle]; [|done].
      exfalso. apply Hcmp, Qlt_le_weak, Hlt.
    + destruct (Qlt_le_dec y x) as [Hlt|Hle]; [|done].
      exfalso. apply Hcmp, Qlt_le_weak, Hlt.
Qed.

(** C9, as the code has it: with no sort specification in the options,
    [query] sorts the collected page by the default [{field: 'id',
    direction: 'asc'}]: its answer is the answer to the same query with
    that sort written out; it holds the records of the chunk-stream page
    (chunk index order, original order within each chunk), each as often
    as the page does; and on a table whose records all hold a number in
    [id] it is ordered by id, never decreasing.  The page keeps the
    chunk-stream order when [sort] is passed as [null]. *)
Theorem omitted_sort_orders_the_page_by_id
    (svc : service) (tableName : string) (tm : TableMetadata)
    (options : QueryOptions) :
  getTableMetadata svc tableName = Some tm ->
  default [] (fields options) = [] ->
  let page := streamPage svc tableName (default ∅ (filter options))
                         (default Infinity (limit options))
                         (default 0%nat (offset options)) (chunksCount tm) in
  exists sorted unsorted,
    query svc tableName (withSort options SortOmitted) = Ok sorted /\
    query svc tableName (withSort options (SortBy defaultSort)) = Ok sorted /\
    data sorted ≡ₚ page /\
    ((forall i chunk r,
         (i < chunksCount tm)%nat ->
         readChunk svc tableName i = Some chunk -> In r chunk ->
         isNumber (get r "id") = true) ->
     StronglySorted
       (fun a b => (numberOf (get a "id") <= numberOf (get b "id"))%Q)
       (data sorted)) /\
    query svc tableName (withSort options SortNull) = Ok unsorted /\
    data unsorted = page.
Proof.
  intros Hmeta Hfields page. do 2 eexists.
  split; [by apply query_ok|].
  split; [by rewrite (query_ok _ _ tm) by done|].
  split; [|split; [|split; [by apply query_ok|]]];
    cbn [data withSort fields filter limit offset sort]; rewrite Hfields;
    unfold selectFields; cbn [length Nat.ltb Nat.leb].
  - apply sortBy_perm.
  - intros Hnum. apply (sortBy_numeric_field defaultSort).
    apply List.Forall_forall. intros r Hr.
    apply streamPage_from_chunks in Hr as (i & chunk & Hi & Hread & Hin).
    by apply (Hnum i chunk).
  - done.
Qed.

Lemma selectFields_app (fields : list string) (l k : list record) :
  selectFields fields (l ++ k) = selectFields fields l ++ selectFields fields k.
Proof.
  unfold selectFields. destruct (0 <? length fields)%nat; [|done].
  apply map_app.
Qed.

(** Without the sort, two pages of 50 make the page of 100. *)
Lemma unsorted_pages_concatenate
    (svc : service) (tableName : string) (tm : TableMetadata)
    (filter : option record) (fields : option (list string)) :
  getTableMetadata svc tableName = Some tm ->
  let options offset limit :=
    {| filter := filter; limit := Some (Finite limit); offset := Some offset;
       fields := fields; sort := SortNull |} in
  exists first second both,
    query svc tableName (options 0 50)%nat = Ok first /\
    query svc tableName (options 50 50)%nat = Ok second /\
    query svc tableName (options 0 100)%nat = Ok both /\
    data first ++ data second = data both.
Proof.
  intros Hmeta options. do 3 eexists.
  split; [by apply query_ok|]. split; [by apply query_ok|].
  split; [by apply query_ok|].
  simpl. rewrite <- selectFields_app. f_equal.
  unfold streamPage. simpl.
  apply (take_take_drop _ 50 50).
Qed.

(** *** Transaction values *)

Lemma nonZeroValues_app (l k : list record) :
  nonZeroValues (l ++ k) = nonZeroValues l ++ nonZeroValues k.
Proof. apply omap_app. Qed.

End Theorems.

(** ** Further theorems *)

Section FurtherTheorems.
Context `{JSRuntime}.

(** *** The predicate evaluator *)

Lemma forallb_entries (f : string * value -> bool) (o : record) :
  forallb f (entries o) = true <->
  forall k v, o !! k = Some v -> f (k, v) = true.
Proof.
  unfold entries. rewrite forallb_forall. split.
  - intros Hall k v Hkv. apply Hall, list_elem_of_In, elem_of_map_to_list, Hkv.
  - intros Hall [k v] Hin. apply Hall, elem_of_map_to_list, list_elem_of_In, Hin.
Qed.

Lemma matchesFilter_true (filter item : record) :
  matchesFilter filter item = true <->
  forall field v, filter !! field = Some v -> matchesClause item field v = true.
Proof. unfold matchesFilter. apply forallb_entries. Qed.

(** X1: the clauses of a filter are AND-ed: a record is in the filtered
    list exactly when it is in the list and matches the clause of every
    field the filter has; the empty filter keeps every record. *)
Theorem filterData_keeps_the_records_matching_every_clause
    (data : list record) (filter item : record) :
  In item (filterData data filter) <->
  In item data /\
  forall field v, filter !! field = Some v -> matchesClause item field v = true.
Proof.
  unfold filterData. destruct (keysLength filter =? 0)%nat eqn:Hlen.
  - apply Nat.eqb_eq, keysLength_zero in Hlen. subst filter. split.
    + intros Hin. split; [done|]. intros field v Hf.
      by rewrite lookup_empty in Hf.
    + by intros [Hin _].
  - rewrite List.filter_In, matchesFilter_true. done.
Qed.

Lemma list_filter_idem {A} (p : A -> bool) (l : list A) :
  List.filter p (List.filter p l) = List.filter p l.
Proof.
  induction l as [|x l IH]; simpl; [done|].
  destruct (p x) eqn:Hp; simpl; [rewrite Hp; by f_equal | done].
Qed.

Lemma list_filter_narrow {A} (p q : A -> bool) (l : list A) :
  (forall x, p x = true -> q x = true) ->
  sublist (List.filter p l) (List.filter q l).
Proof.
  intros Hpq. induction l as [|x l IH]; simpl; [constructor|].
  destruct (p x) eqn:Hp.
  - rewrite (Hpq x Hp). by constructor.
  - destruct (q x); [by constructor | done].
Qed.

(** X2: filtering never adds, duplicates or reorders records (the result
    is a sublist of the input), and filtering the result again with the
    same filter changes nothing. *)
Theorem filterData_sublist_and_idempotent (data : list record) (filter : record) :
  sublist (filterData data filter) data /\
  filterData (filterData data filter) filter = filterData data filter.
Proof.
  split; [apply filterData_sublist|].
  unfold filterData. destruct (keysLength filter =? 0)%nat; [done|].
  apply list_filter_idem.
Qed.

Lemma keysLength_insert (filter : record) (field : string) (v : value) :
  (keysLength (<[field := v]> filter) =? 0)%nat = false.
Proof.
  apply Nat.eqb_neq. intros Hzero. apply keysLength_zero in Hzero.
  by apply insert_non_empty in Hzero.
Qed.

(** X3: a clause added for a field the filter does not constrain yet can
    only narrow the result: the records kept with the larger filter are a
    sublist of those kept without the clause. *)
Theorem filterData_added_clause_narrows
    (data : list record) (filter : record) (field : string) (v : value) :
  filter !! field = None ->
  sublist (filterData data (<[field := v]> filter)) (filterData data filter).
Proof.
  intros Hnew. unfold filterData at 1. rewrite keysLength_insert.
  unfold filterData. destruct (keysLength filter =? 0)%nat.
  - apply list_filter_sublist.
  - apply list_filter_narrow. intros item.
    rewrite !matchesFilter_true. intros Hall k w Hk. apply Hall.
    rewrite lookup_insert_ne; [done|]. intros ->. congruence.
Qed.

(** An operator map with several operators is the conjunction of them. *)
Lemma matchesClause_object (item : record) (field : string) (ops : record) :
  matchesClause item field (VObject ops) = true <->
  forall op val, ops !! op = Some val ->
                 evalOperator (get item field) op val = true.
Proof. simpl. apply forallb_entries. Qed.

Lemma rangeClause_ops (lo hi : value) :
  exists ops : record,
    rangeClause lo hi = VObject ops /\
    (truthy lo = true -> ops !! "gte" = Some lo) /\
    (truthy hi = true -> ops !! "lte" = Some hi).
Proof.
  unfold rangeClause. eexists. split; [reflexivity|].
  destruct (truthy lo), (truthy hi); split; intros; try done;
    first [ by rewrite lookup_insert_eq
          | by rewrite lookup_insert_ne, lookup_insert_eq ].
Qed.

Lemma dealsFilter_announcementDate (filters : record) :
  truthy (get filters "startDate") || truthy (get filters "endDate") = true ->
  dealsFilter filters !! "announcementDate" =
  Some (rangeClause (get filters "startDate") (get filters "endDate")).
Proof.
  intros Hdate. unfold dealsFilter. rewrite Hdate.
  repeat match goal with
  | |- context [if ?b then _ else _] => destruct b
  end;
  repeat (rewrite lookup_insert_ne by done); by rewrite lookup_insert_eq.
Qed.

Lemma dealsFilter_transactionValue (filters : record) :
  truthy (get filters "minSize") || truthy (get filters "maxSize") = true ->
  dealsFilter filters !! "transactionValue" =
  Some (rangeClause (get filters "minSize") (get filters "maxSize")).
Proof.
  intros Hsize. unfold dealsFilter. rewrite Hsize.
  repeat match goal with
  | |- context [if ?b then _ else _] => destruct b
  end;
  repeat (rewrite lookup_insert_ne by done); by rewrite lookup_insert_eq.
Qed.

Lemma Qlt_bool_false (x y : Q) : Qlt_bool x y = false <-> (y <= x)%Q.
Proof.
  unfold Qlt_bool. rewrite negb_false_iff. apply Qle_bool_iff.
Qed.

(** X4: the size range of the UI keeps only the records whose
    transactionValue field (the camel-case one) holds a number between the
    two bounds: a record read from a chunk and kept by the filter that
    [getDeals] builds from non-zero [minSize] and [maxSize] has such a
    value. *)
Theorem dealsFilter_size_range_bounds_transactionValue
    (data : list record) (filters item : record) (lo hi : Q) :
  get filters "minSize" = VNumber lo ->
  get filters "maxSize" = VNumber hi ->
  ~ (lo == 0)%Q -> ~ (hi == 0)%Q ->
  In item (filterData data (dealsFilter filters)) ->
  exists x, get item "transactionValue" = VNumber x /\ (lo <= x)%Q /\ (x <= hi)%Q.
Proof.
  intros Hlo Hhi Hlo0 Hhi0 Hin.
  assert (Htlo : truthy (VNumber lo) = true).
  { simpl. unfold isZero. apply negb_true_iff, not_true_is_false.
    by rewrite Qeq_bool_iff. }
  assert (Hthi : truthy (VNumber hi) = true).
  { simpl. unfold isZero. apply negb_true_iff, not_true_is_false.
    by rewrite Qeq_bool_iff. }
  pose proof (dealsFilter_transactionValue filters) as Hclause.
  rewrite Hlo, Hhi, Htlo in Hclause. specialize (Hclause eq_refl).
  apply (filterData_matches _ _ _ _ _ Hclause) in Hin.
  apply (matchesFilter_clause _ _ _ _ Hclause) in Hin.
  destruct (rangeClause_ops (VNumber lo) (VNumber hi)) as (ops & Hops & Hgte & Hlte).
  rewrite Hops in Hin. rewrite matchesClause_object in Hin.
  pose proof (Hin _ _ (Hgte Htlo)) as Hge.
  pose proof (Hin _ _ (Hlte Hthi)) as Hle.
  unfold evalOperator in Hge, Hle. simpl in Hge, Hle.
  destruct (get item "transactionValue") as [| | | x | | |]; try discriminate.
  exists x. split; [done|]. split; by apply Qle_bool_iff.
Qed.

(** A range bound that is set but is not a number matches no record. *)
Lemma range_bound_not_numeric (filter item : record) (field : string) (lo hi : value) :
  filter !! field = Some (rangeClause lo hi) ->
  (truthy lo = true /\ isNumber lo = false) \/
  (truthy hi = true /\ isNumber hi = false) ->
  matchesFilter filter item = false.
Proof.
  intros Hclause Hbad. apply not_true_is_false. intros Hm.
  apply (matchesFilter_clause _ _ _ _ Hclause) in Hm.
  destruct (rangeClause_ops lo hi) as (ops & Hops & Hgte & Hlte).
  rewrite Hops, matchesClause_object in Hm.
  destruct Hbad as [[Ht Hn] | [Ht Hn]].
  - specialize (Hm _ _ (Hgte Ht)).
    rewrite (evalOperator_ordering _ _ "gte") in Hm;
      [done | simpl; tauto | rewrite Hn; apply andb_false_r].
  - specialize (Hm _ _ (Hlte Ht)).
    rewrite (evalOperator_ordering _ _ "lte") in Hm;
      [done | simpl; tauto | rewrite Hn; apply andb_false_r].
Qed.

Lemma list_filter_none {A} (p : A -> bool) (l : list A) :
  (forall x, p x = false) -> List.filter p l = [].
Proof.
  intros Hp. induction l as [|x l IH]; simpl; [done|]. by rewrite Hp.
Qed.

Lemma dealsFilter_date_matches_nothing (data : list record) (filters : record) :
  (truthy (get filters "startDate") = true /\
   isNumber (get filters "startDate") = false) \/
  (truthy (get filters "endDate") = true /\
   isNumber (get filters "endDate") = false) ->
  filterData data (dealsFilter filters) = [].
Proof.
  intros Hbad.
  assert (Hdate : truthy (get filters "startDate") ||
                  truthy (get filters "endDate") = true).
  { destruct Hbad as [[-> _] | [-> _]]; [done | apply orb_true_r]. }
  pose proof (dealsFilter_announcementDate filters Hdate) as Hclause.
  unfold filterData.
  destruct (keysLength (dealsFilter filters) =? 0)%nat eqn:Hlen.
  - apply Nat.eqb_eq, keysLength_zero in Hlen. rewrite Hlen in Hclause.
    by rewrite lookup_empty in Hclause.
  - apply list_filter_none. intros item.
    by apply (range_bound_not_numeric _ _ _ _ _ Hclause).
Qed.

Lemma flat_map_nil {A B} (f : A -> list B) (l : list A) :
  (forall a, f a = []) -> flat_map f l = [].
Proof.
  intros Hf. induction l as [|a l IH]; simpl; [done|]. by rewrite Hf, IH.
Qed.

(** X5: a date bound of the UI that is set to a date string (any truthy
    value that is not a number) empties the answer of [getDeals]: the
    bound reaches the evaluator as an ordering clause on a non-number, so
    no deal is returned and [totalCount] is 0, whatever the chunks hold. *)
Theorem getDeals_with_date_string_returns_nothing
    (svc : service) (tm : TableMetadata) (options : DealsOptions)
    (uiFilters : record) :
  getTableMetadata svc "deals" = Some tm ->
  filters options = Some uiFilters ->
  (truthy (get uiFilters "startDate") = true /\
   isNumber (get uiFilters "startDate") = false) \/
  (truthy (get uiFilters "endDate") = true /\
   isNumber (get uiFilters "endDate") = false) ->
  getDeals svc options = Ok {| deals := []; totalCount := 0 |}.
Proof.
  intros Hmeta Hfilters Hbad.
  unfold getDeals. rewrite Hfilters. simpl default.
  rewrite (query_ok _ _ tm) by done. simpl.
  assert (Hstream : forall indices,
             matchStream svc "deals" (dealsFilter uiFilters) indices = []).
  { intros indices. apply flat_map_nil. intros i.
    by apply dealsFilter_date_matches_nothing. }
  unfold streamPage. rewrite !Hstream.
  assert (Hlen : (keysLength (dealsFilter uiFilters) =? 0)%nat = false).
  { apply Nat.eqb_neq. intros Hzero. apply keysLength_zero in Hzero.
    assert (Hdate : truthy (get uiFilters "startDate") ||
                    truthy (get uiFilters "endDate") = true).
    { destruct Hbad as [[-> _] | [-> _]]; [done | apply orb_true_r]. }
    pose proof (dealsFilter_announcementDate uiFilters Hdate) as Hclause.
    rewrite Hzero in Hclause. by rewrite lookup_empty in Hclause. }
  rewrite Hlen. simpl. rewrite drop_nil, take_nil. simpl.
  by destruct (negb _).
Qed.

(** *** The query engine *)

Lemma sortBy_length {A} (cmp : A -> A -> Z) (l : list A) :
  length (sortBy cmp l) = length l.
Proof. apply Permutation_length, sortBy_perm. Qed.

Lemma selectFields_length (fields : list string) (l : list record) :
  length (selectFields fields l) = length l.
Proof.
  unfold selectFields. destruct (0 <? length fields)%nat; [|done].
  apply length_map.
Qed.

Lemma takeBound_length {A} (limit : bound) (l : list A) :
  length (takeBound limit l) =
  match limit with
  | Finite n => Nat.min n (length l)
  | Infinity => length l
  end.
Proof. destruct limit; simpl; [apply length_take | done]. Qed.

Lemma matchStream_all (svc : service) (tableName : string) (filter : record)
    (indices : list nat) :
  matchStream svc tableName filter indices =
  filterData (flat_map (chunkRecords svc tableName) indices) filter.
Proof. unfold matchStream. by rewrite filterData_flat_map. Qed.

(** X6: the size of a page: [query] returns as many records as remain
    among the matching records of the table after skipping [offset] of
    them, capped by [limit]; neither the sort nor the field selection
    changes that number. *)
Theorem query_page_length
    (svc : service) (tableName : string) (tm : TableMetadata)
    (options : QueryOptions) :
  getTableMetadata svc tableName = Some tm ->
  exists res all,
    query svc tableName options = Ok res /\
    getAllData svc tableName = Ok all /\
    let matching := length (filterData all (default ∅ (filter options))) in
    let rest := (matching - default 0 (offset options))%nat in
    length (data res) =
      match default Infinity (limit options) with
      | Finite l => Nat.min l rest
      | Infinity => rest
      end.
Proof.
  intros Hmeta. do 2 eexists.
  split; [by apply query_ok|]. split; [by apply getAllData_ok|].
  simpl. rewrite selectFields_length.
  assert (Hpage : length (streamPage svc tableName (default ∅ (filter options))
                            (default Infinity (limit options))
                            (default 0%nat (offset options)) (chunksCount tm)) =
                  match default Infinity (limit options) with
                  | Finite l =>
                      Nat.min l
                        (length (filterData
                                   (flat_map (chunkRecords svc tableName)
                                             (seq 0 (chunksCount tm)))
                                   (default ∅ (filter options))) -
                         default 0 (offset options))
                  | Infinity =>
                      (length (filterData
                                 (flat_map (chunkRecords svc tableName)
                                           (seq 0 (chunksCount tm)))
                                 (default ∅ (filter options))) -
                       default 0 (offset options))%nat
                  end).
  { unfold streamPage. by rewrite takeBound_length, length_drop, matchStream_all. }
  destruct (sort options); rewrite ?sortBy_length; exact Hpage.
Qed.

(** X26: [total] is a property of the table and the filter alone: two
    queries with the same filter report the same total whatever their
    limit, offset, sort and field selection are, and each answer echoes
    the offset and the limit it was asked with (0 and [Infinity] when
    they are left out). *)
Theorem query_total_ignores_paging
    (svc : service) (tableName : string) (tm : TableMetadata)
    (options options' : QueryOptions) :
  getTableMetadata svc tableName = Some tm ->
  filter options = filter options' ->
  exists res res',
    query svc tableName options = Ok res /\
    query svc tableName options' = Ok res' /\
    total res = total res' /\
    offset_ res = default 0%nat (offset options) /\
    limit_ res = default Infinity (limit options).
Proof.
  intros Hmeta Hfilter. do 2 eexists.
  split; [by apply query_ok|]. split; [by apply query_ok|].
  simpl. by rewrite Hfilter.
Qed.

Lemma matchStream_app (svc : service) (tableName : string) (filter : record)
    (l k : list nat) :
  matchStream svc tableName filter (l ++ k) =
  matchStream svc tableName filter l ++ matchStream svc tableName filter k.
Proof. unfold matchStream. apply flat_map_app. Qed.

Lemma matchStream_ext (svc svc' : service) (tableName : string) (filter : record)
    (indices : list nat) :
  (forall i, In i indices -> readChunk svc tableName i = readChunk svc' tableName i) ->
  matchStream svc tableName filter indices =
  matchStream svc' tableName filter indices.
Proof.
  intros Hsame. unfold matchStream.
  induction indices as [|i rest IH]; simpl; [done|].
  unfold chunkRecords at 1 2. rewrite (Hsame i) by (by left).
  f_equal. apply IH. intros j Hj. apply Hsame. by right.
Qed.

Lemma streamPage_prefix (svc : service) (tableName : string) (filter : record)
    (l offset m n : nat) :
  (m <= n)%nat ->
  (offset + l <= length (matchStream svc tableName filter (seq 0 m)))%nat ->
  streamPage svc tableName filter (Finite l) offset n =
  take l (drop offset (matchStream svc tableName filter (seq 0 m))).
Proof.
  intros Hmn Hlen. unfold streamPage. simpl.
  replace n with (m + (n - m))%nat by lia.
  rewrite seq_app, matchStream_app, skipn_app, take_app_le; [done|].
  rewrite length_drop. lia.
Qed.

(** X7: early termination: once the first [m] chunks hold [offset + limit]
    matching records, the page does not depend on any later chunk: two
    data directories that agree on the first [m] chunks give the same
    page, whatever their later chunks hold. *)
Theorem query_page_ignores_later_chunks
    (svc svc' : service) (tableName : string) (tm tm' : TableMetadata)
    (options : QueryOptions) (l m : nat) :
  getTableMetadata svc tableName = Some tm ->
  getTableMetadata svc' tableName = Some tm' ->
  limit options = Some (Finite l) ->
  (m <= chunksCount tm)%nat -> (m <= chunksCount tm')%nat ->
  (forall i, (i < m)%nat ->
             readChunk svc tableName i = readChunk svc' tableName i) ->
  (default 0 (offset options) + l <=
   length (matchStream svc tableName (default ∅ (filter options)) (seq 0 m)))%nat ->
  exists res res',
    query svc tableName options = Ok res /\
    query svc' tableName options = Ok res' /\
    data res = data res'.
Proof.
  intros Hmeta Hmeta' Hlimit Hm Hm' Hsame Hlen. do 2 eexists.
  split; [by apply query_ok|]. split; [by apply query_ok|].
  cbn [data]. rewrite Hlimit.
  change (default Infinity (Some (Finite l))) with (Finite l).
  assert (Hext : matchStream svc tableName (default ∅ (filter options)) (seq 0 m) =
                 matchStream svc' tableName (default ∅ (filter options)) (seq 0 m)).
  { apply matchStream_ext. intros i Hi. apply Hsame. apply in_seq in Hi. lia. }
  rewrite (streamPage_prefix svc _ _ _ _ m) by done.
  rewrite (streamPage_prefix svc' _ _ _ _ m); [|done|by rewrite <- Hext].
  by rewrite Hext.
Qed.





(** X9: on a table whose records all hold a number in the sort field, the
    page that [query] returns is ordered by that field: never decreasing
    for [asc], never increasing for [desc]. *)
Theorem query_page_is_ordered_by_numeric_field
    (svc : service) (tableName : string) (tm : TableMetadata)
    (options : QueryOptions) (spec : sortSpec) :
  getTableMetadata svc tableName = Some tm ->
  sort options = SortBy spec ->
  fields options = None ->
  (forall i chunk r,
      (i < chunksCount tm)%nat ->
      readChunk svc tableName i = Some chunk -> In r chunk ->
      isNumber (get r (field spec)) = true) ->
  exists res,
    query svc tableName options = Ok res /\
    StronglySorted
      (fun a b =>
         match direction_ spec with
         | Asc => (numberOf (get a (field spec)) <= numberOf (get b (field spec)))%Q
         | Desc => (numberOf (get b (field spec)) <= numberOf (get a (field spec)))%Q
         end)
      (data res).
Proof.
  intros Hmeta Hsort Hfields Hnum. eexists.
  split; [by apply query_ok|].
  simpl. rewrite Hsort, Hfields. unfold selectFields. simpl.
  apply sortBy_numeric_field.
  apply List.Forall_forall. intros r Hr.
  apply streamPage_from_chunks in Hr as (i & chunk & Hi & Hread & Hin).
  by apply (Hnum i chunk).
Qed.

(** X10: a query with no filter, limit, offset or field selection and
    with [sort: null] returns exactly the records of [getAllData], in the
    same order. *)
Theorem query_unsorted_unbounded_is_getAllData
    (svc : service) (tableName : string) (tm : TableMetadata) :
  getTableMetadata svc tableName = Some tm ->
  exists res all,
    query svc tableName
          {| filter := None; limit := None; offset := None; fields := None;
             sort := SortNull |} = Ok res /\
    getAllData svc tableName = Ok all /\
    data res = all.
Proof.
  intros Hmeta. do 2 eexists.
  split; [by apply query_ok|]. split; [by apply getAllData_ok|].
  simpl. unfold selectFields, streamPage. simpl. by rewrite matchStream_all.
Qed.

(** *** [getDealById] and [getDeals] *)

Lemma findDeal_app (svc : service) (id : value) (l k : list nat) :
  findDeal svc "deals" id (l ++ k) =
  match findDeal svc "deals" id l with
  | Some deal => Some deal
  | None => findDeal svc "deals" id k
  end.
Proof.
  induction l as [|i l IH]; simpl; [done|].
  destruct (readChunk svc "deals" i) as [chunk|]; [|done].
  by destruct (List.find _ chunk).
Qed.

Lemma find_first {A} (p : A -> bool) (pre post : list A) (x : A) :
  (forall y, In y pre -> p y = false) -> p x = true ->
  List.find p (pre ++ x :: post) = Some x.
Proof.
  intros Hpre Hx. induction pre as [|y pre IH]; simpl.
  - by rewrite Hx.
  - rewrite (Hpre y) by (by left). apply IH. intros z Hz. apply Hpre. by right.
Qed.

(** X11: [getDealById] returns the first record, in chunk order and in
    the order within the chunk, whose id is loosely equal to the given
    one, passed through the schema adapter. *)
Theorem getDealById_returns_first_match
    (svc : service) (tm : TableMetadata) (id : value) (i : nat)
    (pre post : list record) (deal : record) :
  getTableMetadata svc "deals" = Some tm ->
  (i < chunksCount tm)%nat ->
  readChunk svc "deals" i = Some (pre ++ deal :: post) ->
  looseEq (get deal "id") id = true ->
  (forall d, In d pre -> looseEq (get d "id") id = false) ->
  (forall j chunk d,
      (j < i)%nat -> readChunk svc "deals" j = Some chunk -> In d chunk ->
      looseEq (get d "id") id = false) ->
  getDealById svc id = Ok (transformDealToCamelCase deal).
Proof.
  intros Hmeta Hi Hread Hmatch Hpre Hearlier.
  unfold getDealById. rewrite Hmeta.
  replace (chunksCount tm) with (i + S (chunksCount tm - S i))%nat by lia.
  rewrite seq_app, findDeal_app, findDeal_none.
  - simpl. rewrite Hread.
    by rewrite (find_first (fun d => looseEq (get d "id") id) pre post deal).
  - intros j chunk d Hj. apply Hearlier. apply in_seq in Hj. lia.
Qed.

Lemma map_sublist {A B} (f : A -> B) (l k : list A) :
  sublist l k -> sublist (map f l) (map f k).
Proof. induction 1; simpl; by constructor. Qed.

(** X12: the search text of [getDeals] is a filter applied to the page
    after the query: it can only remove deals from the page that the same
    call returns without search text, and it leaves [totalCount], the
    count of the query, unchanged. *)
Theorem getDeals_search_filters_the_page_only
    (svc : service) (options : DealsOptions) (search : string) :
  match getDeals svc (withSearch options None),
        getDeals svc (withSearch options (Some search)) with
  | Ok plain, Ok searched =>
      totalCount searched = totalCount plain /\
      sublist (deals searched) (deals plain)
  | Throw msg, Throw msg' => msg = msg'
  | _, _ => False
  end.
Proof.
  unfold getDeals, withSearch. simpl.
  destruct (query svc "deals" _) as [queryResult|msg]; simpl; [|done].
  split; [done|].
  destruct (negb (String.eqb search "")); [|done].
  apply map_sublist, list_filter_sublist.
Qed.

Lemma transformDealToCamelCase_dom (deal : record) :
  dom (transformDealToCamelCase deal) = list_to_set canonicalKeys.
Proof. unfold transformDealToCamelCase. by rewrite dom_list_to_map_L. Qed.

Lemma sublist_length_le {A} (l k : list A) : sublist l k -> (length l <= length k)%nat.
Proof. induction 1; simpl; lia. Qed.

(** X13: every deal that [getDeals] returns has exactly the twenty fields
    of the output convention, whatever fields the stored record had, and
    a page never holds more than [pageSize] deals (100 when no page size
    is given). *)
Theorem getDeals_page_is_canonical_and_bounded
    (svc : service) (options : DealsOptions) (answer : DealsResult) :
  getDeals svc options = Ok answer ->
  Forall (fun deal => dom deal = list_to_set canonicalKeys) (deals answer) /\
  (length (deals answer) <= default 100 (pageSize options))%nat.
Proof.
  intros Hanswer. unfold getDeals in Hanswer.
  destruct (getTableMetadata svc "deals") as [tm|] eqn:Hmeta.
  - rewrite (query_ok _ _ tm) in Hanswer by done.
    simpl in Hanswer. injection Hanswer as <-. simpl. split.
    + apply List.Forall_forall. intros deal Hdeal.
      apply in_map_iff in Hdeal as (d & <- & _).
      apply transformDealToCamelCase_dom.
    + rewrite length_map.
      match goal with
      | |- (length (if ?b then List.filter ?p ?l else ?l) <= _)%nat =>
          assert (Hle : (length (if b then List.filter p l else l) <= length l)%nat)
      end.
      { destruct (negb _); [|done].
        apply sublist_length_le, list_filter_sublist. }
      etransitivity; [exact Hle|].
      unfold selectFields. simpl. rewrite sortBy_length.
      unfold streamPage. simpl. rewrite length_take. lia.
  - unfold query in Hanswer. rewrite Hmeta in Hanswer. discriminate Hanswer.
Qed.

Lemma isUpper_lowerAscii (c : ascii) :
  isUpper c = true -> isUpper (lowerAscii c) = false.
Proof.
  intros Hup. unfold lowerAscii. rewrite Hup.
  unfold isUpper in *. apply andb_true_iff in Hup as [Hlo Hhi].
  apply Nat.leb_le in Hlo, Hhi.
  rewrite nat_ascii_embedding by lia.
  apply andb_false_iff. right. apply Nat.leb_gt. lia.
Qed.

Lemma camelToSnakeCase_fixed (s : string) :
  noUpper s = true -> camelToSnakeCase s = s.
Proof.
  induction s as [|c s IH]; simpl; [done|].
  intros [Hc Hs]%andb_true_iff. apply negb_true_iff in Hc.
  rewrite Hc. by rewrite IH.
Qed.

Lemma camelToSnakeCase_length (s : string) :
  String.length (camelToSnakeCase s) = (String.length s + countUpper s)%nat.
Proof.
  induction s as [|c s IH]; simpl; [done|].
  destruct (isUpper c); simpl; rewrite IH; lia.
Qed.

(** X14: [camelToSnakeCase] leaves no upper-case ASCII letter in its
    result; it returns its argument unchanged exactly when the argument
    has none, so applying it twice is applying it once; and the result is
    longer than the argument by one character per upper-case letter. *)
Theorem camelToSnakeCase_removes_upper_case (s : string) :
  noUpper (camelToSnakeCase s) = true /\
  (camelToSnakeCase s = s <-> noUpper s = true) /\
  camelToSnakeCase (camelToSnakeCase s) = camelToSnakeCase s /\
  String.length (camelToSnakeCase s) = (String.length s + countUpper s)%nat.
Proof.
  assert (Hno : noUpper (camelToSnakeCase s) = true).
  { induction s as [|c s IH]; simpl; [done|].
    destruct (isUpper c) eqn:Hc; simpl.
    - by rewrite (isUpper_lowerAscii c Hc), IH.
    - by rewrite Hc, IH. }
  split; [done|]. split; [|split].
  - split; [intros <-; exact Hno | apply camelToSnakeCase_fixed].
  - by apply camelToSnakeCase_fixed.
  - apply camelToSnakeCase_length.
Qed.

(** *** [getStatistics] and [check-data-loaded] *)

(** A quantity of the counters that each deal updates by [step], and that
    the count of a chunk does not touch, is the fold of [step] over all
    the records of the table. *)
Lemma statistics_fold {M : Type} (m : counters -> M) (step : M -> record -> M)
    (svc : service) (indices : list nat) :
  (forall c deal, m (addDeal c deal) = step (m c) deal) ->
  (forall c n,
      m {| c_totalDeals := c_totalDeals c + n;
           c_totalValue := c_totalValue c; c_largestDeal := c_largestDeal c;
           c_sumValues := c_sumValues c; c_valueCount := c_valueCount c;
           c_completedDeals := c_completedDeals c;
           c_announcedDeals := c_announcedDeals c;
           c_pendingDeals := c_pendingDeals c |} = m c) ->
  forall c,
    m (foldl (fun c i =>
                match readChunk svc "deals" i with
                | None => c
                | Some chunkData => addChunk c chunkData
                end) c indices) =
    foldl step (m c) (flat_map (chunkRecords svc "deals") indices).
Proof.
  intros Hstep Hbump.
  assert (Hdeals : forall ds c, m (foldl addDeal c ds) = foldl step (m c) ds).
  { induction ds as [|deal ds IH]; intros c; simpl; [done|].
    by rewrite IH, Hstep. }
  induction indices as [|i rest IH]; intros c; simpl; [done|].
  rewrite IH, foldl_app. f_equal.
  assert (Hrecords : chunkRecords svc "deals" i =
                     default [] (readChunk svc "deals" i)) by done.
  rewrite Hrecords.
  destruct (readChunk svc "deals" i) as [chunkData|]; simpl; [|done].
  unfold addChunk. by rewrite Hdeals, Hbump.
Qed.

Lemma totalDeals_fold (svc : service) (indices : list nat) :
  forall c,
    c_totalDeals (foldl (fun c i =>
                           match readChunk svc "deals" i with
                           | None => c
                           | Some chunkData => addChunk c chunkData
                           end) c indices) =
    (c_totalDeals c + length (flat_map (chunkRecords svc "deals") indices))%nat.
Proof.
  assert (Hdeal : forall c deal, c_totalDeals (addDeal c deal) = c_totalDeals c).
  { intros c deal. unfold addDeal, addStatus, addValue.
    repeat match goal with
    | |- context [match ?x with _ => _ end] => destruct x
    end; reflexivity. }
  assert (Hdeals : forall ds c,
             c_totalDeals (foldl addDeal c ds) = c_totalDeals c).
  { induction ds as [|deal ds IH]; intros c; simpl; [done|].
    by rewrite IH, Hdeal. }
  induction indices as [|i rest IH]; intros c; simpl; [lia|].
  rewrite IH, length_app.
  assert (Hrecords : chunkRecords svc "deals" i =
                     default [] (readChunk svc "deals" i)) by done.
  rewrite Hrecords.
  destruct (readChunk svc "deals" i) as [chunkData|]; simpl; [|lia].
  unfold addChunk. rewrite Hdeals. simpl. lia.
Qed.

Lemma count_fold {A} (p : A -> bool) (l : list A) (n : nat) :
  foldl (fun acc x => (acc + if p x then 1 else 0)%nat) n l =
  (n + length (List.filter p l))%nat.
Proof.
  revert n. induction l as [|x l IH]; intros n; simpl; [lia|].
  rewrite IH. destruct (p x); simpl; lia.
Qed.

Lemma strictEq_string (v : value) (name : string) :
  strictEq v (VString name) = true -> v = VString name.
Proof.
  destruct v as [| | | | s | |]; simpl; try discriminate.
  by intros ->%String.eqb_eq.
Qed.

Lemma addDeal_status (c : counters) (deal : record) :
  c_completedDeals (addDeal c deal) =
    (c_completedDeals c + if hasStatus "Completed" deal then 1 else 0)%nat /\
  c_announcedDeals (addDeal c deal) =
    (c_announcedDeals c + if hasStatus "Announced" deal then 1 else 0)%nat /\
  c_pendingDeals (addDeal c deal) =
    (c_pendingDeals c + if hasStatus "Pending" deal then 1 else 0)%nat.
Proof.
  assert (Hvalue : c_completedDeals (addValue c deal) = c_completedDeals c /\
                   c_announcedDeals (addValue c deal) = c_announcedDeals c /\
                   c_pendingDeals (addValue c deal) = c_pendingDeals c).
  { unfold addValue.
    repeat match goal with
    | |- context [match ?x with _ => _ end] => destruct x
    end; done. }
  destruct Hvalue as (Hc & Ha & Hp).
  unfold addDeal, addStatus, hasStatus.
  destruct (strictEq (pick deal "transaction_status" "transactionStatus")
                     (VString "Completed")) eqn:Hcompleted.
  { rewrite (strictEq_string _ _ Hcompleted). simpl. lia. }
  destruct (strictEq (pick deal "transaction_status" "transactionStatus")
                     (VString "Announced")) eqn:Hannounced.
  { rewrite (strictEq_string _ _ Hannounced). simpl. lia. }
  destruct (strictEq (pick deal "transaction_status" "transactionStatus")
                     (VString "Pending")) eqn:Hpending.
  { rewrite (strictEq_string _ _ Hpending). simpl. lia. }
  destruct (truthy _); simpl; lia.
Qed.

(** X15: the counts of [getStatistics]: [totalDeals] is the number of
    records of [getAllData], and each status counter is the number of
    those records whose status (transaction_status, or transactionStatus
    when that is falsy) is exactly the counter's name; a record with any
    other status is counted in [totalDeals] only. *)
Theorem getStatistics_counts_deals_and_statuses
    (svc : service) (tm : TableMetadata) :
  getTableMetadata svc "deals" = Some tm ->
  exists stats all,
    getStatistics svc = Ok stats /\
    getAllData svc "deals" = Ok all /\
    totalDeals stats = length all /\
    completedDeals stats = length (List.filter (hasStatus "Completed") all) /\
    announcedDeals stats = length (List.filter (hasStatus "Announced") all) /\
    pendingDeals stats = length (List.filter (hasStatus "Pending") all).
Proof.
  intros Hmeta. do 2 eexists.
  split; [unfold getStatistics; by rewrite Hmeta|].
  split; [by apply getAllData_ok|].
  unfold summarise. simpl.
  split; [by rewrite totalDeals_fold|].
  split; [|split].
  - rewrite (statistics_fold c_completedDeals
               (fun acc deal =>
                  (acc + if hasStatus "Completed" deal then 1 else 0)%nat));
      [by rewrite count_fold | intros; apply addDeal_status | done].
  - rewrite (statistics_fold c_announcedDeals
               (fun acc deal =>
                  (acc + if hasStatus "Announced" deal then 1 else 0)%nat));
      [by rewrite count_fold | intros; apply addDeal_status | done].
  - rewrite (statistics_fold c_pendingDeals
               (fun acc deal =>
                  (acc + if hasStatus "Pending" deal then 1 else 0)%nat));
      [by rewrite count_fold | intros; apply addDeal_status | done].
Qed.

Lemma addDeal_largest (c : counters) (deal : record) :
  c_largestDeal (addDeal c deal) = maxWith (c_largestDeal c) deal.
Proof.
  unfold addDeal, addStatus, addValue, maxWith, nonZeroValues, transactionValueOf.
  simpl.
  destruct (pick deal "transaction_value" "transactionValue") as [| | | q | | |];
    try destruct (isZero q); simpl;
    repeat match goal with
    | |- context [if ?b then _ else _] => destruct b
    end; reflexivity.
Qed.

Lemma maxWith_cases (largest : Q) (deal : record) :
  (largest <= maxWith largest deal)%Q /\
  Forall (fun v => (v <= maxWith largest deal)%Q) (nonZeroValues [deal]) /\
  (maxWith largest deal = largest \/ In (maxWith largest deal) (nonZeroValues [deal])).
Proof.
  unfold maxWith.
  assert (Hone : nonZeroValues [deal] = [] \/ exists v, nonZeroValues [deal] = [v]).
  { unfold nonZeroValues. simpl. destruct (transactionValueOf deal); eauto.
    destruct (isZero q); eauto. }
  destruct Hone as [-> | [v ->]].
  - split; [apply Qle_refl|]. split; [constructor | by left].
  - destruct (Qlt_bool largest v) eqn:Hlt.
    + split.
      * unfold Qlt_bool in Hlt. apply negb_true_iff, not_true_iff_false in Hlt.
        rewrite Qle_bool_iff in Hlt.
        destruct (Qlt_le_dec largest v) as [Hl|Hl]; [by apply Qlt_le_weak | done].
      * split; [repeat constructor; apply Qle_refl | right; by left].
    + apply Qlt_bool_false in Hlt.
      split; [apply Qle_refl|]. split; [by repeat constructor | by left].
Qed.

Lemma maxWith_fold (ds : list record) :
  forall largest,
    let final := foldl maxWith largest ds in
    (largest <= final)%Q /\
    Forall (fun v => (v <= final)%Q) (nonZeroValues ds) /\
    (final = largest \/ In final (nonZeroValues ds)).
Proof.
  induction ds as [|deal ds IH]; intros largest.
  - simpl. split; [apply Qle_refl|]. split; [constructor | by left].
  - cbn [foldl]. cbv zeta.
    destruct (IH (maxWith largest deal)) as (Hle & Hall & Hin).
    destruct (maxWith_cases largest deal) as (Hle1 & Hall1 & Hin1).
    change (deal :: ds) with ([deal] ++ ds).
    rewrite nonZeroValues_app. split; [|split].
    + eapply Qle_trans; eauto.
    + apply Forall_app. split; [|done].
      eapply List.Forall_impl; [|exact Hall1].
      intros v Hv. simpl in Hv. eapply Qle_trans; eauto.
    + destruct Hin as [-> | Hin].
      * destruct Hin1 as [-> | Hin1]; [by left|].
        right. apply in_or_app. by left.
      * right. apply in_or_app. by right.
Qed.

(** X16: [largestDeal] is the largest transaction value that is a number
    other than zero, and never below 0: it is at least 0 and at least
    every such value, and it is 0 or one of those values, so a table
    whose values are all negative reports 0. *)
Theorem getStatistics_largestDeal_is_the_maximum
    (svc : service) (tm : TableMetadata) :
  getTableMetadata svc "deals" = Some tm ->
  exists stats all,
    getStatistics svc = Ok stats /\
    getAllData svc "deals" = Ok all /\
    (0 <= largestDeal stats)%Q /\
    Forall (fun v => (v <= largestDeal stats)%Q) (nonZeroValues all) /\
    (largestDeal stats = 0%Q \/ In (largestDeal stats) (nonZeroValues all)).
Proof.
  intros Hmeta. do 2 eexists.
  split; [unfold getStatistics; by rewrite Hmeta|].
  split; [by apply getAllData_ok|].
  unfold summarise. simpl.
  rewrite (statistics_fold c_largestDeal maxWith);
    [ | apply addDeal_largest | done].
  apply (maxWith_fold _ 0%Q).
Qed.

(** X18: the [check-data-loaded] handler answers [true] exactly when the
    service is constructed, knows the deals table and reads at least one
    record from its chunks; a missing service, a missing table and a
    table without readable records all give [false]. *)
Theorem checkDataLoaded_iff_some_record (dbService : option service) :
  checkDataLoaded dbService = true <->
  exists svc all,
    dbService = Some svc /\ getAllData svc "deals" = Ok all /\ all <> [].
Proof.
  destruct dbService as [svc|]; unfold checkDataLoaded.
  2:{ split; [done | by intros (svc & all & Hnone & _)]. }
  unfold getStatistics.
  destruct (getTableMetadata svc "deals") as [tm|] eqn:Hmeta.
  - unfold summarise. cbn [totalDeals]. rewrite totalDeals_fold.
    cbn [zeroCounters c_totalDeals]. rewrite Nat.add_0_l. split.
    + intros Hpos. apply Nat.ltb_lt in Hpos. do 2 eexists.
      split; [done|]. split; [by apply getAllData_ok|].
      intros Hnil. rewrite Hnil in Hpos. simpl in Hpos. lia.
    + intros (svc' & all & Hsvc & Hall & Hne). injection Hsvc as <-.
      rewrite (getAllData_ok _ _ tm Hmeta) in Hall. injection Hall as <-.
      apply Nat.ltb_lt.
      destruct (flat_map _ _); [done | simpl; lia].
  - split; [done|].
    intros (svc' & all & Hsvc & Hall & _). injection Hsvc as <-.
    unfold getAllData in Hall. rewrite Hmeta in Hall. discriminate Hall.
Qed.

(** *** [getFilterOptions] *)

Lemma collectDeal_fold (ds : list record) :
  forall sets,
    transactionTypesSet (foldl collectDeal sets ds) =
      foldl addIfTruthy (transactionTypesSet sets)
            (map (fun deal => pick deal "transaction_type" "transactionType") ds) /\
    regionsSet (foldl collectDeal sets ds) =
      foldl addIfTruthy (regionsSet sets)
            (map (fun deal => pick deal "target_region" "targetRegion") ds) /\
    industriesSet (foldl collectDeal sets ds) =
      foldl addIfTruthy (industriesSet sets)
            (flat_map (fun deal =>
                         [pick deal "target_industry_1" "targetIndustry1";
                          pick deal "target_industry_2" "targetIndustry2"]) ds).
Proof.
  induction ds as [|deal ds IH]; intros sets; simpl; [done|].
  destruct (IH (collectDeal sets deal)) as (-> & -> & ->). done.
Qed.

Lemma strictEq_sym (a b : value) : strictEq a b = strictEq b a.
Proof.
  destruct a, b; simpl; try reflexivity.
  - by destruct b, b0.
  - destruct (Qeq_bool q q0) eqn:Hq, (Qeq_bool q0 q) eqn:Hq'; try reflexivity.
    + apply Qeq_bool_iff, Qeq_sym, Qeq_bool_iff in Hq. congruence.
    + apply Qeq_bool_iff, Qeq_sym, Qeq_bool_iff in Hq'. congruence.
  - apply String.eqb_sym.
Qed.

Lemma setAdd_sound (set : list value) (v x : value) :
  In x (setAdd set v) -> In x set \/ x = v.
Proof.
  unfold setAdd. destruct (existsb _ set); [by left|].
  intros [Hin | [<- | []]]%in_app_or; [by left | by right].
Qed.

Lemma addIfTruthy_fold_sound (values : list value) :
  forall set x,
    In x (foldl addIfTruthy set values) ->
    In x set \/ (truthy x = true /\ In x values).
Proof.
  induction values as [|v values IH]; intros set x; simpl; [by left|].
  intros Hin. apply IH in Hin as [Hin | [Ht Hin]].
  - unfold addIfTruthy in Hin. destruct (truthy v) eqn:Hv; [|by left].
    apply setAdd_sound in Hin as [Hin | ->]; [by left|].
    right. split; [done | by left].
  - right. split; [done | by right].
Qed.

Lemma addIfTruthy_fold_keeps (values : list value) :
  forall set x, In x set -> In x (foldl addIfTruthy set values).
Proof.
  induction values as [|v values IH]; intros set x Hin; simpl; [done|].
  apply IH. unfold addIfTruthy, setAdd.
  destruct (truthy v); [|done].
  destruct (existsb _ set); [done|]. apply in_or_app. by left.
Qed.

Lemma addIfTruthy_fold_complete (values : list value) :
  forall set s,
    In (VString s) values -> s <> "" ->
    In (VString s) (foldl addIfTruthy set values).
Proof.
  induction values as [|v values IH]; intros set s Hin Hs; simpl; [done|].
  destruct Hin as [-> | Hin]; [|by apply IH].
  apply addIfTruthy_fold_keeps. unfold addIfTruthy, setAdd. simpl.
  destruct (String.eqb_spec s ""); [done|]. simpl.
  destruct (existsb (strictEq (VString s)) set) eqn:Hex.
  - apply existsb_exists in Hex as (x & Hx & Heq).
    rewrite strictEq_sym in Heq. by rewrite <- (strictEq_string _ _ Heq).
  - apply in_or_app. right. by left.
Qed.

Lemma collects_sorted (values : list value) (cmp : value -> value -> Z) :
  collects values (sortBy cmp (foldl addIfTruthy [] values)).
Proof.
  split.
  - intros x Hx.
    apply (Permutation_in _ (sortBy_perm _ _)) in Hx.
    by apply addIfTruthy_fold_sound in Hx as [[] | ?].
  - intros s Hs Hne.
    apply (Permutation_in _ (Permutation_sym (sortBy_perm _ _))).
    by apply addIfTruthy_fold_complete.
Qed.

(** X19: what [getFilterOptions] lists: the transaction types are truthy
    transaction types of deals of the table, and every non-empty string
    that is the transaction type of a deal is listed; the same holds for
    the regions; the industries are collected from both industry fields
    of every deal into one list. *)
Theorem getFilterOptions_lists_the_values_of_the_table
    (svc : service) (tm : TableMetadata) :
  getTableMetadata svc "deals" = Some tm ->
  exists options all,
    getFilterOptions svc = Ok options /\
    getAllData svc "deals" = Ok all /\
    collects (map (fun deal => pick deal "transaction_type" "transactionType") all)
             (transactionTypes options) /\
    collects (map (fun deal => pick deal "target_region" "targetRegion") all)
             (regions options) /\
    collects (flat_map (fun deal =>
                          [pick deal "target_industry_1" "targetIndustry1";
                           pick deal "target_industry_2" "targetIndustry2"]) all)
             (industries options).
Proof.
  intros Hmeta. do 2 eexists.
  split; [unfold getFilterOptions; by rewrite (getAllData_ok _ _ tm Hmeta)|].
  split; [by apply getAllData_ok|].
  simpl.
  destruct (collectDeal_fold
              (flat_map (chunkRecords svc "deals") (seq 0 (chunksCount tm)))
              {| transactionTypesSet := []; regionsSet := [];
                 industriesSet := [] |}) as (-> & -> & ->).
  simpl. split; [|split]; apply collects_sorted.
Qed.

Lemma strLtb_asym (s t : string) : strLtb s t = true -> strLtb t s = false.
Proof.
  revert t. induction s as [|a s IH]; intros [|b t]; simpl; try done.
  intros Hlt. apply orb_true_iff in Hlt. apply orb_false_iff.
  destruct (Nat.ltb_spec (nat_of_ascii a) (nat_of_ascii b)) as [Hab|Hab].
  - split; [apply Nat.ltb_ge; lia|].
    apply andb_false_iff. left. apply Nat.eqb_neq. lia.
  - destruct Hlt as [Hlt | Hlt]; [done|].
    apply andb_true_iff in Hlt as [Heq Hrest]. apply Nat.eqb_eq in Heq.
    split; [apply Nat.ltb_ge; lia|].
    apply andb_false_iff. right. by apply IH.
Qed.

Lemma strLtb_le_trans (a b c : string) :
  strLtb b a = false -> strLtb c b = false -> strLtb c a = false.
Proof.
  revert b c. induction a as [|x a IH]; intros b c.
  - by destruct c.
  - destruct b as [|y b]; [by destruct c|].
    destruct c as [|z c]; [done|]. simpl.
    intros [Hyx Hba]%orb_false_iff [Hzy Hcb]%orb_false_iff.
    apply Nat.ltb_ge in Hyx, Hzy. apply orb_false_iff.
    split; [apply Nat.ltb_ge; lia|].
    destruct (Nat.eqb_spec (nat_of_ascii z) (nat_of_ascii x)) as [Hzx|Hzx];
      [|done].
    simpl. apply andb_false_iff in Hba, Hcb.
    assert (Heq1 : (nat_of_ascii y =? nat_of_ascii x)%nat = true)
      by (apply Nat.eqb_eq; lia).
    assert (Heq2 : (nat_of_ascii z =? nat_of_ascii y)%nat = true)
      by (apply Nat.eqb_eq; lia).
    rewrite Heq1 in Hba. rewrite Heq2 in Hcb.
    destruct Hba as [|Hba]; [done|]. destruct Hcb as [|Hcb]; [done|].
    by apply (IH b c).
Qed.

Lemma insertBy_pairwise {A} (cmp : A -> A -> Z) (R : A -> A -> Prop)
    (x : A) (l : list A) :
  (forall a b, R a b -> R b a) ->
  Forall (R x) l -> StronglySorted R l ->
  StronglySorted R (insertBy cmp x l).
Proof.
  intros Hsym Hx Hsorted. induction l as [|y l IH]; simpl.
  - repeat constructor.
  - apply Forall_cons in Hx as [Hxy Hx].
    apply StronglySorted_inv in Hsorted as [Hsorted Hy].
    destruct (cmp x y <=? 0)%Z.
    + constructor; [by constructor | by constructor].
    + constructor; [by apply IH|].
      eapply Permutation_Forall; [symmetry; apply insertBy_perm|].
      constructor; [by apply Hsym | done].
Qed.

Lemma sortBy_pairwise {A} (cmp : A -> A -> Z) (R : A -> A -> Prop) (l : list A) :
  (forall a b, R a b -> R b a) ->
  StronglySorted R l -> StronglySorted R (sortBy cmp l).
Proof.
  intros Hsym. induction l as [|x l IH]; simpl; [done|].
  intros [Hsorted Hx]%StronglySorted_inv.
  apply insertBy_pairwise; [done | | by apply IH].
  eapply Permutation_Forall; [symmetry; apply sortBy_perm | done].
Qed.

Lemma pairwise_snoc {A} (R : A -> A -> Prop) (l : list A) (x : A) :
  StronglySorted R l -> Forall (fun a => R a x) l ->
  StronglySorted R (l ++ [x]).
Proof.
  induction l as [|y l IH]; simpl; intros Hsorted Hx.
  - repeat constructor.
  - apply StronglySorted_inv in Hsorted as [Hsorted Hy].
    apply Forall_cons in Hx as [Hyx Hx].
    constructor; [by apply IH|].
    apply Forall_app. split; [done | by repeat constructor].
Qed.

Lemma addIfTruthy_fold_distinct (values : list value) :
  forall set,
    StronglySorted (fun a b => strictEq a b = false) set ->
    StronglySorted (fun a b => strictEq a b = false)
                   (foldl addIfTruthy set values).
Proof.
  induction values as [|v values IH]; intros set Hset; simpl; [done|].
  apply IH. unfold addIfTruthy, setAdd.
  destruct (truthy v); [|done].
  destruct (existsb (strictEq v) set) eqn:Hex; [done|].
  apply pairwise_snoc; [done|].
  apply List.Forall_forall. intros a Ha. rewrite strictEq_sym.
  destruct (strictEq v a) eqn:Heq; [|done].
  assert (existsb (strictEq v) set = true); [|congruence].
  apply existsb_exists. eauto.
Qed.

Lemma defaultCompare_sorted (l : list value) :
  StronglySorted (fun a b => strLtb (toStr b) (toStr a) = false)
                 (sortBy defaultCompare l).
Proof.
  apply (sortBy_strongly_sorted _ _ (fun _ => True)).
  - intros a b c Hab Hbc. by apply (strLtb_le_trans _ (toStr b)).
  - intros a b _ _. unfold defaultCompare.
    destruct (strLtb (toStr a) (toStr b)) eqn:Hab; [intros _; by apply strLtb_asym|].
    by destruct (strLtb (toStr b) (toStr a)).
  - intros a b _ _. unfold defaultCompare.
    destruct (strLtb (toStr a) (toStr b)) eqn:Hab; [done|].
    by destruct (strLtb (toStr b) (toStr a)).
  - by apply List.Forall_forall.
Qed.

(** X20: each list of [getFilterOptions] is free of duplicates (no two of
    its elements are strictly equal, also when a value occurs in both
    industry fields) and is sorted: no element is followed, at any
    distance, by one whose string is smaller. *)
Theorem getFilterOptions_lists_are_distinct_and_sorted
    (svc : service) (tm : TableMetadata) :
  getTableMetadata svc "deals" = Some tm ->
  exists options,
    getFilterOptions svc = Ok options /\
    Forall (fun l =>
              StronglySorted (fun a b => strictEq a b = false) l /\
              StronglySorted (fun a b => strLtb (toStr b) (toStr a) = false) l)
           [transactionTypes options; regions options; industries options].
Proof.
  intros Hmeta. eexists.
  split; [unfold getFilterOptions; by rewrite (getAllData_ok _ _ tm Hmeta)|].
  simpl.
  destruct (collectDeal_fold
              (flat_map (chunkRecords svc "deals") (seq 0 (chunksCount tm)))
              {| transactionTypesSet := []; regionsSet := [];
                 industriesSet := [] |}) as (-> & -> & ->).
  simpl.
  repeat constructor;
    try apply defaultCompare_sorted;
    (apply sortBy_pairwise;
     [ intros a b Hab; by rewrite strictEq_sym
     | apply addIfTruthy_fold_distinct; constructor ]).
Qed.

(** *** [getDealsLight] *)

Lemma light_loop (svc : service) (indices : list nat) (allData : list record) :
  foldl (fun allData i => allData ++ default [] (readChunk svc "deals" i))
        allData indices =
  allData ++ flat_map (chunkRecords svc "deals") indices.
Proof.
  revert allData. induction indices as [|i rest IH]; intros allData; simpl.
  - by rewrite app_nil_r.
  - rewrite IH. by rewrite <- app_assoc.
Qed.

Lemma takeBound_map {A B} (f : A -> B) (limit : bound) (l : list A) :
  takeBound limit (map f l) = map f (takeBound limit l).
Proof. destruct limit; simpl; [by rewrite firstn_map | done]. Qed.

(** X21: [getDealsLight] answers an unknown deals table with an empty
    page and total 0 where [query] throws; its page is never longer than
    the limit (100 when none is given) nor than its [total]. *)
Theorem getDealsLight_page_is_bounded (svc : service) (options : QueryOptions) :
  let answer := getDealsLight svc options in
  match default (Finite 100) (limit options) with
  | Finite l => (length (data answer) <= l)%nat
  | Infinity => True
  end /\
  (length (data answer) <= total answer)%nat /\
  match getTableMetadata svc "deals" with
  | None => data answer = [] /\ total answer = 0%nat
  | Some _ => True
  end.
Proof.
  unfold getDealsLight.
  destruct (getTableMetadata svc "deals") as [tm|]; simpl.
  - split; [|split; [|done]].
    + destruct (default (Finite 100) (limit options)) as [l|]; [|done].
      simpl. rewrite length_take. lia.
    + rewrite takeBound_length, length_drop.
      destruct (default (Finite 100) (limit options)); lia.
  - split; [|done]. destruct (default (Finite 100) (limit options)); simpl; lia.
Qed.

Lemma flat_map_length_full {A} (f : nat -> list A) (a k size : nat) :
  (forall i, (a <= i < a + k)%nat -> length (f i) = size) ->
  length (flat_map f (seq a k)) = (size * k)%nat.
Proof.
  revert a. induction k as [|k IH]; intros a Hfull; simpl; [lia|].
  rewrite length_app, IH, Hfull; [lia | lia |].
  intros i Hi. apply Hfull. lia.
Qed.

Lemma flat_map_length_le {A} (f : nat -> list A) (a k size : nat) :
  (forall i, (a <= i < a + k)%nat -> (length (f i) <= size)%nat) ->
  (length (flat_map f (seq a k)) <= size * k)%nat.
Proof.
  revert a. induction k as [|k IH]; intros a Hle; simpl; [lia|].
  rewrite length_app.
  assert (length (f a) <= size)%nat by (apply Hle; lia).
  assert (length (flat_map f (seq (S a) k)) <= size * k)%nat.
  { apply IH. intros i Hi. apply Hle. lia. }
  lia.
Qed.

Lemma ceilChunks_spec (n : nat) :
  (n <= CHUNK_SIZE * ceilChunks n)%nat /\
  (CHUNK_SIZE * ceilChunks n < n + CHUNK_SIZE)%nat.
Proof.
  unfold ceilChunks, CHUNK_SIZE. simpl Nat.sub.
  pose proof (Nat.div_mod_eq (n + 999) 1000) as Hdm.
  pose proof (Nat.mod_upper_bound (n + 999) 1000) as Hm.
  lia.
Qed.

(** X22: on a deals table whose chunks have the standard sizes,
    [getDealsLight] without a filter returns the page that pagination
    over the whole table defines: the records [offset, offset + limit) of
    [getAllData], each reduced to its light form. *)
Theorem getDealsLight_pages_the_whole_table
    (svc : service) (tm : TableMetadata) (options : QueryOptions) :
  getTableMetadata svc "deals" = Some tm ->
  keysLength (default ∅ (filter options)) = 0%nat ->
  standardChunks svc (chunksCount tm) ->
  exists all,
    getAllData svc "deals" = Ok all /\
    data (getDealsLight svc options) =
    map lightDeal
        (takeBound (default (Finite 100) (limit options))
                   (drop (default 0 (offset options)) all)).
Proof.
  intros Hmeta Hfilter Hstd. eexists. split; [by apply getAllData_ok|].
  unfold getDealsLight. rewrite Hmeta, Hfilter. cbn [Nat.ltb Nat.leb data].
  rewrite light_loop. cbn [app].
  set (limit' := default (Finite 100) (limit options)).
  set (offset' := default 0%nat (offset options)).
  set (n := chunksCount tm) in *.
  set (R := chunkRecords svc "deals") in *.
  rewrite skipn_map, takeBound_map. f_equal.
  pose proof (Nat.div_mod_eq offset' CHUNK_SIZE) as Hdm.
  pose proof (Nat.mod_upper_bound offset' CHUNK_SIZE) as Hmod.
  assert (HCS : CHUNK_SIZE = 1000%nat) by done.
  specialize (Hmod ltac:(lia)).
  set (start := (offset' / CHUNK_SIZE)%nat) in *.
  set (r := (offset' mod CHUNK_SIZE)%nat) in *.
  set (stop := lightEndChunk offset' limit' n).
  destruct (Nat.le_gt_cases n start) as [Hout|Hin].
  - (* the page starts after the last chunk *)
    assert (Hstop : (stop - start = 0)%nat).
    { unfold stop, lightEndChunk. destruct limit'; lia. }
    rewrite Hstop. simpl. rewrite drop_nil.
    assert (Hall : (length (flat_map R (seq 0 n)) <= CHUNK_SIZE * n)%nat).
    { apply flat_map_length_le. intros i Hi. apply Hstd. lia. }
    rewrite (drop_ge (flat_map R (seq 0 n))) by nia. done.
  - assert (Hstart : length (flat_map R (seq 0 start)) = (CHUNK_SIZE * start)%nat).
    { apply flat_map_length_full. intros i Hi. apply Hstd; lia. }
    assert (Hle : (start <= stop)%nat /\ (stop <= n)%nat).
    { unfold stop, lightEndChunk. destruct limit' as [l|]; [|lia].
      destruct (ceilChunks_spec (offset' + l)). nia. }
    destruct Hle as [Hle1 Hle2].
    assert (Hseq : seq 0 n =
                   seq 0 start ++ seq start (stop - start) ++ seq stop (n - stop)).
    { transitivity (seq 0 (start + ((stop - start) + (n - stop))));
        [f_equal; lia|].
      rewrite !seq_app. simpl. repeat f_equal; lia. }
    rewrite Hseq, !flat_map_app, skipn_app, Hstart.
    rewrite (drop_ge (flat_map R (seq 0 start))) by lia.
    replace (offset' - CHUNK_SIZE * start)%nat with r by lia.
    cbn [app].
    destruct (Nat.eq_dec stop n) as [Hend|Hmore].
    + replace (n - stop)%nat with 0%nat by lia. simpl. by rewrite app_nil_r.
    + destruct limit' as [l|]; [|unfold stop, lightEndChunk in Hmore; lia].
      assert (Hstop : stop = ceilChunks (offset' + l)).
      { unfold stop, lightEndChunk in *. lia. }
      destruct (ceilChunks_spec (offset' + l)) as [Hceil _].
      rewrite <- Hstop in Hceil.
      assert (Hwin : length (flat_map R (seq start (stop - start))) =
                     (CHUNK_SIZE * (stop - start))%nat).
      { apply flat_map_length_full. intros i Hi. apply Hstd; lia. }
      simpl. rewrite skipn_app, take_app_le; [done|].
      rewrite length_drop. nia.
Qed.

(** *** The conversion script *)

Lemma chunkOf_length (jsonData : list record) (i : nat) :
  length (chunkOf jsonData i) =
  (Nat.min (i * CHUNK_SIZE + CHUNK_SIZE) (length jsonData) - i * CHUNK_SIZE)%nat.
Proof.
  unfold chunkOf, slice. rewrite length_take, length_drop.
  generalize CHUNK_SIZE. intros size. lia.
Qed.

Lemma chunkOf_prefix (jsonData : list record) (k : nat) :
  flat_map (chunkOf jsonData) (seq 0 k) = take (k * CHUNK_SIZE) jsonData.
Proof.
  induction k as [|k IH]; [done|].
  rewrite seq_S, flat_map_app, IH. cbn [flat_map Nat.add]. rewrite app_nil_r.
  unfold chunkOf, slice. rewrite take_take_drop.
  generalize CHUNK_SIZE. intros size.
  destruct (Nat.le_gt_cases (k * size + size) (length jsonData)).
  - f_equal. lia.
  - rewrite !take_ge; [done | lia | lia].
Qed.

(** X23: the chunk files of the conversion script partition the rows:
    read in index order they give back the rows in their order; the
    script writes [ceil(rows / 1000)] chunks, none of them empty, each of
    at most 1000 rows and every one but the last of exactly 1000. *)
Theorem script_chunks_partition_the_rows
    (outputDir : string) (jsonData : list record) :
  flat_map snd (scriptWrites outputDir jsonData) = jsonData /\
  length (scriptWrites outputDir jsonData) = ceilChunks (length jsonData) /\
  forall i, (i < totalChunks jsonData)%nat ->
    (0 < length (chunkOf jsonData i) <= CHUNK_SIZE)%nat /\
    ((S i < totalChunks jsonData)%nat ->
     length (chunkOf jsonData i) = CHUNK_SIZE).
Proof.
  destruct (ceilChunks_spec (length jsonData)) as [Hlo Hhi].
  fold (totalChunks jsonData) in Hlo, Hhi.
  split; [|split].
  - unfold scriptWrites. rewrite flat_map_concat_map, map_map. simpl.
    rewrite <- flat_map_concat_map, chunkOf_prefix.
    apply take_ge. lia.
  - unfold scriptWrites. by rewrite length_map, length_seq.
  - intros i Hi. rewrite chunkOf_length. unfold CHUNK_SIZE in *. lia.
Qed.

Lemma append_inj_l (p s t : string) : p +:+ s = p +:+ t -> s = t.
Proof.
  induction p as [|c p IH]; simpl; [done|].
  intros Heq. injection Heq as Heq. by apply IH.
Qed.

Lemma scriptChunkPath_not_read (dir : string) (i j : nat) (svc : service) :
  dataDirectory svc = dir ->
  scriptChunkPath dir i <> globalChunkPath svc j /\
  scriptChunkPath dir i <> tableChunkPath svc "deals" j.
Proof.
  intros <-. unfold scriptChunkPath, globalChunkPath, tableChunkPath, pathJoin.
  simpl. split; intros Heq; apply append_inj_l in Heq; discriminate Heq.
Qed.

Lemma freshlyConverted_lookup (dir : string) (tables : gmap string TableMetadata)
    (jsonData : list record) (path : string) :
  (forall i, scriptChunkPath dir i <> path) ->
  disk (freshlyConverted dir tables jsonData) !! path = None.
Proof.
  intros Hpath. unfold freshlyConverted. simpl.
  apply not_elem_of_list_to_map_1. intros Hin.
  apply list_elem_of_fmap in Hin as ([p content] & -> & Hin).
  apply list_elem_of_fmap in Hin as ([p' rows] & Heq & Hin).
  injection Heq as -> _. simpl in *.
  unfold scriptWrites in Hin. apply list_elem_of_In, in_map_iff in Hin.
  destruct Hin as (i & Heq & _). injection Heq as Heq _.
  by apply (Hpath i).
Qed.

(** X24: the chunk files that the conversion script writes
    ([deals_chunk_i.json] in the data directory) are not the files that
    [readChunk] opens for the deals table: over a data directory that
    holds only what the script wrote, every chunk read gives [null] and
    [getAllData] is empty, however many rows were converted. *)
Theorem script_output_is_not_read_by_the_service
    (dir : string) (tables : gmap string TableMetadata)
    (jsonData : list record) :
  let svc := freshlyConverted dir tables jsonData in
  (forall i, readChunk svc "deals" i = None) /\
  match getAllData svc "deals" with
  | Ok all => all = []
  | Throw _ => tables !! "deals" = None
  end.
Proof.
  intros svc.
  assert (Hnone : forall i, readChunk svc "deals" i = None).
  { intros j. unfold readChunk, readChunkTry, existsSync.
    rewrite !(freshlyConverted_lookup dir tables jsonData).
    - done.
    - intros i. by apply (scriptChunkPath_not_read dir i j svc).
    - intros i. by apply (scriptChunkPath_not_read dir i j svc). }
  split; [done|].
  unfold getAllData, getTableMetadata. simpl.
  destruct (tables !! "deals") as [tm|]; [|done].
  rewrite getAllData_loop. simpl. apply flat_map_nil.
  intros i. unfold chunkRecords. by rewrite Hnone.
Qed.

Lemma flat_map_ext_seq {A} (f g : nat -> list A) (a k : nat) :
  (forall i, (a <= i < a + k)%nat -> f i = g i) ->
  flat_map f (seq a k) = flat_map g (seq a k).
Proof.
  revert a. induction k as [|k IH]; intros a Hfg; simpl; [done|].
  rewrite Hfg by lia. f_equal. apply IH. intros i Hi. apply Hfg. lia.
Qed.

(** X25: round trip: when the service reads chunk [i] of a table back as
    the rows the script put in chunk [i], and the table's metadata is the
    one the script computes (chunk count and row count), [getAllData]
    returns the converted rows and [count] is the number of rows matching
    the filter, also through the row-count shortcut of the empty filter. *)
Theorem converted_rows_are_read_back
    (svc : service) (tableName : string) (tm : TableMetadata)
    (jsonData : list record) (filter : record) :
  getTableMetadata svc tableName = Some tm ->
  chunksCount tm = totalChunks jsonData ->
  totalRows tm = length jsonData ->
  (forall i, (i < totalChunks jsonData)%nat ->
             readChunk svc tableName i = Some (chunkOf jsonData i)) ->
  getAllData svc tableName = Ok jsonData /\
  count svc tableName filter = Ok (length (filterData jsonData filter)).
Proof.
  intros Hmeta Hchunks Hrows Hread.
  assert (Hall : flat_map (chunkRecords svc tableName) (seq 0 (chunksCount tm)) =
                 jsonData).
  { rewrite Hchunks.
    rewrite (flat_map_ext_seq _ (chunkOf jsonData)).
    - rewrite chunkOf_prefix. apply take_ge.
      destruct (ceilChunks_spec (length jsonData)) as [Hlo _].
      unfold totalChunks. lia.
    - intros i Hi. unfold chunkRecords. rewrite Hread by lia. done. }
  split; [by rewrite (getAllData_ok _ _ tm Hmeta), Hall|].
  unfold count. rewrite Hmeta.
  destruct (keysLength filter =? 0)%nat eqn:Hlen.
  - apply Nat.eqb_eq, keysLength_zero in Hlen. subst filter.
    destruct (totalRows tm =? 0)%nat eqn:Hzero; simpl.
    + rewrite count_loop, matchStream_all, Hall. done.
    + by rewrite Hrows.
  - simpl. rewrite count_loop, matchStream_all, Hall. done.
Qed.

End FurtherTheorems.

(** ** The statements at sample data *)

Section Samples.
#[local] Existing Instance asciiHost.

(** C1: on a chunk holding the ids 51, 50, ..., 1, each page is sorted on
    its own after it was cut from the stream: the two pages of 50 are
    2..51 and 1, the page of 100 is 1..51, so the pages do not
    concatenate to it. *)
Theorem sorted_pages_do_not_concatenate :
  exists first second both,
    query descendingIds "t" (pageOptions 0 50) = Ok first /\
    query descendingIds "t" (pageOptions 50 50) = Ok second /\
    query descendingIds "t" (pageOptions 0 100) = Ok both /\
    ids (data first) = map num (seqZ 2 50) /\
    ids (data second) = [num 1] /\
    ids (data both) = map num (seqZ 1 51) /\
    data first ++ data second <> data both.
Proof.
  do 3 eexists.
  split; [reflexivity|]. split; [reflexivity|]. split; [reflexivity|].
  split; [vm_compute; reflexivity|]. split; [vm_compute; reflexivity|].
  split; [vm_compute; reflexivity|].
  intros Heq. apply (f_equal ids) in Heq. vm_compute in Heq. discriminate Heq.
Qed.

(** Against C2 as stated: with metadata that records 5 rows over a single
    chunk of one record, the total of the unfiltered query is 5 while
    [getAllData] has one record. *)
Lemma stale_metadata_total_differs :
  exists res all,
    query staleMetadata "t" noOptions = Ok res /\
    getAllData staleMetadata "t" = Ok all /\
    total res = 5%nat /\
    length (filterData all ∅) = 1%nat /\
    total res <> length (filterData all ∅).
Proof.
  do 2 eexists.
  split; [reflexivity|]. split; [reflexivity|].
  split; [vm_compute; reflexivity|]. split; [vm_compute; reflexivity|].
  vm_compute. discriminate.
Qed.

(** The total theorem at that table. *)
Lemma query_total_witness :
  exists res all,
    query staleMetadata "t" noOptions = Ok res /\
    getAllData staleMetadata "t" = Ok all /\
    total res = 5%nat.
Proof.
  destruct (query_total_is_count_or_recorded_rows staleMetadata "t"
              {| name := "t"; chunksCount := 1; totalRows := 5;
                 columns := ["id"] |} noOptions)
    as (res & all & Hq & Ha & Ht).
  - reflexivity.
  - exists res, all. split; [exact Hq|]. split; [exact Ha|]. exact Ht.
Defined.

(** Against C9 as stated: with no sort in the options, a chunk holding
    the ids 2, 1 comes back as 1, 2, not in chunk-stream order. *)
Lemma default_sort_reorders_the_page :
  exists res,
    query twoRecords "t" noOptions = Ok res /\
    ids (data res) = [num 1; num 2] /\
    ids (streamPage twoRecords "t" ∅ Infinity 0 1) = [num 2; num 1] /\
    data res <> streamPage twoRecords "t" ∅ Infinity 0 1.
Proof.
  eexists. split; [reflexivity|].
  split; [vm_compute; reflexivity|]. split; [vm_compute; reflexivity|].
  intros Heq. apply (f_equal ids) in Heq. vm_compute in Heq. discriminate Heq.
Qed.

(** The sort theorem at that table: the ids 2, 1 come back as 1, 2 for an
    omitted sort and as 2, 1 for a null sort. *)
Lemma omitted_sort_witness :
  exists sorted unsorted,
    query twoRecords "t" noOptions = Ok sorted /\
    query twoRecords "t" (sortedBy defaultSort) = Ok sorted /\
    data sorted ≡ₚ streamPage twoRecords "t" ∅ Infinity 0 1 /\
    StronglySorted
      (fun a b => (numberOf (get a "id") <= numberOf (get b "id"))%Q)
      (data sorted) /\
    query twoRecords "t" (withSort noOptions SortNull) = Ok unsorted /\
    data unsorted = streamPage twoRecords "t" ∅ Infinity 0 1.
Proof.
  destruct (omitted_sort_orders_the_page_by_id twoRecords "t"
              {| name := "t"; chunksCount := 1; totalRows := 2;
                 columns := ["id"] |} noOptions)
    as (sorted & unsorted & Homitted & Hdefault & Hperm & Hsorted & Hnull & Hpage).
  - reflexivity.
  - reflexivity.
  - exists sorted, unsorted.
    split; [exact Homitted|]. split; [exact Hdefault|].
    split; [exact Hperm|]. split; [|split; [exact Hnull | exact Hpage]].
    apply Hsorted. intros i chunk r Hi Hread Hin. simpl in Hi.
    assert (i = 0%nat) as -> by lia.
    assert (Hchunk : readChunk twoRecords "t" 0 =
                     Some [idRecord 2; idRecord 1]) by reflexivity.
    rewrite Hchunk in Hread. injection Hread as <-.
    destruct Hin as [<-|[<-|[]]]; reflexivity.
Defined.

(** C7: [getStatistics] does not average every present numeric
    transaction value: the guard [value && typeof value === 'number']
    skips a value of 0.  Of the transaction values 0 and 10, both present
    and numeric, only 10 is added and counted: [avgDealSize] is 10, where
    the sum of the present numeric values over their count is 5. *)
Lemma zero_value_is_not_averaged :
  exists stats all,
    getStatistics zeroValueDeal = Ok stats /\
    getAllData zeroValueDeal "deals" = Ok all /\
    numericValues all = [0; 10]%Q /\
    (avgDealSize stats == 10)%Q /\
    (average (numericValues all) == 5)%Q /\
    ~ (avgDealSize stats == average (numericValues all))%Q.
Proof.
  do 2 eexists.
  split; [reflexivity|]. split; [reflexivity|].
  split; [vm_compute; reflexivity|]. split; [vm_compute; reflexivity|].
  split; [vm_compute; reflexivity|].
  vm_compute. discriminate.
Qed.

(** The transaction values 10, 20, null, 30 average to 60 / 3 = 20. *)
Example four_deals_average :
  exists stats,
    getStatistics fourDeals = Ok stats /\ (avgDealSize stats == 20)%Q.
Proof. eexists. split; [reflexivity | vm_compute; reflexivity]. Qed.

(** The adapter leaves a record with exactly the output fields as it is. *)
Lemma transformDealToCamelCase_witness :
  transformDealToCamelCase canonicalDeal = canonicalDeal.
Proof.
  apply transformDealToCamelCase_idempotent.
  unfold canonicalDeal.
  rewrite dom_list_to_map_L, <- list_fmap_compose.
  f_equal.
Defined.

(** A date string against [{gte: "2019-01-01"}]: no match. *)
Lemma ordering_clause_witness :
  evalOperator (get datedRecord "announcementDate") "gte" (VString "2019-01-01")
    = false /\
  matchesFilter sinceFilter datedRecord = false /\
  ~ In datedRecord (filterData [datedRecord] sinceFilter).
Proof.
  apply (ordering_clause_non_numeric_is_non_match
           [datedRecord] sinceFilter {[ "gte" := VString "2019-01-01" ]}
           datedRecord "announcementDate" "gte" (VString "2019-01-01")).
  - reflexivity.
  - reflexivity.
  - simpl. tauto.
  - left. reflexivity.
Defined.

(** The misspelt operator [gtt] constrains nothing. *)
Lemma unknown_operator_witness :
  (forall fieldValue, evalOperator fieldValue "gtt" (num 5) = true) /\
  (forall item,
      matchesClause item "transactionValue" (VObject {[ "gtt" := num 5 ]}) = true) /\
  filterData [idRecord 1; idRecord 2]
             {[ "transactionValue" := VObject {[ "gtt" := num 5 ]} ]} =
  [idRecord 1; idRecord 2].
Proof.
  apply (unknown_operator_matches_all [idRecord 1; idRecord 2]
           "transactionValue" "gtt" (num 5)).
  simpl. intros [Heq|[Heq|[Heq|[Heq|[Heq|[Heq|[Heq|[]]]]]]]]; discriminate Heq.
Defined.

(** Against C5 as stated: for the unparseable chunk 0, [readChunk]
    returns [null], which is not the empty sequence of records. *)
Lemma damaged_chunk_is_null_not_empty :
  chunkDamaged corruptFirstChunk "t" 0 /\
  readChunk corruptFirstChunk "t" 0 = None /\
  readChunk corruptFirstChunk "t" 0 <> Some [].
Proof.
  split; [right; split; [left; discriminate | right; reflexivity]|].
  split; [reflexivity | discriminate].
Qed.

(** With an unparseable chunk 0, [readChunk] gives [null] for it and the
    record of chunk 1 is still returned. *)
Lemma damaged_chunk_witness :
  readChunk corruptFirstChunk "t" 0 = None /\
  (exists all,
      getAllData corruptFirstChunk "t" = Ok all /\ In (idRecord 7) all) /\
  (exists res,
      query corruptFirstChunk "t"
            {| filter := Some ∅; limit := None; offset := None; fields := None;
               sort := SortOmitted |} = Ok res /\
      In (idRecord 7) (data res)).
Proof.
  destruct (damaged_chunk_reads_null_and_is_skipped corruptFirstChunk "t"
              {| name := "t"; chunksCount := 2; totalRows := 2;
                 columns := ["id"] |} 0%nat)
    as (Hnone & (all & Hall & Hin) & Hquery).
  - reflexivity.
  - right. split; [left; discriminate | right; reflexivity].
  - split; [exact Hnone|]. split.
    + exists all. split; [exact Hall|].
      apply (Hin 1%nat [idRecord 7]); [simpl; lia | discriminate | reflexivity |].
      left. reflexivity.
    + destruct (Hquery (Some ∅) SortOmitted) as (res & Hres & Hin').
      exists res. split; [exact Hres|].
      apply (Hin' 1%nat [idRecord 7]);
        [simpl; lia | discriminate | reflexivity |].
      left. reflexivity.
Defined.

(** A name that is no table and no member of [Object.prototype] throws,
    and so does an id that no deal has. *)
Example nonexistent_table_and_id_throw :
  query twoDeals "nonexistent" noOptions = Throw "Table 'nonexistent' not found" /\
  (forall deal, getDealById twoDeals (num 7) <> Ok deal).
Proof.
  destruct (not_found_is_thrown twoDeals "nonexistent" noOptions (num 7))
    as [Hquery Hdeal].
  split.
  - apply Hquery. reflexivity.
  - apply Hdeal. intros tm i chunk d Hmeta Hi Hread Hin.
    vm_compute in Hmeta. injection Hmeta as <-. simpl in Hi.
    assert (i = 0%nat) as -> by lia.
    assert (Hchunk : readChunk twoDeals "deals" 0 =
                     Some [idRecord 1; idRecord 2]) by reflexivity.
    rewrite Hchunk in Hread. injection Hread as <-.
    destruct Hin as [<-|[<-|[]]]; reflexivity.
Qed.

(** The table name [constructor], which the metadata of the sample
    service does not have, is answered with the empty success result. *)
Lemma inherited_name_witness :
  query twoDeals "constructor" noOptions =
  Ok {| data := []; total := 0; offset_ := 0; limit_ := Infinity |}.
Proof.
  apply (inherited_name_is_not_rejected twoDeals "constructor" noOptions).
  - reflexivity.
  - simpl. tauto.
Defined.

End Samples.

(** ** The further statements at sample data *)

Section FurtherSamples.
#[local] Existing Instance asciiHost.

(** A clause on the date added to the empty filter. *)
Lemma filterData_added_clause_witness :
  sublist (filterData [datedRecord]
                      (<["announcementDate" := VString "2020-01-01"]> ∅))
          (filterData [datedRecord] ∅).
Proof. apply filterData_added_clause_narrows. reflexivity. Defined.

(** A value of 10 kept by the size range 5..50. *)
Lemma dealsFilter_size_range_witness :
  exists x,
    get sizedRecord "transactionValue" = VNumber x /\
    (inject_Z 5 <= x)%Q /\ (x <= inject_Z 50)%Q.
Proof.
  apply (dealsFilter_size_range_bounds_transactionValue
           [sizedRecord] sizeFilters sizedRecord (inject_Z 5) (inject_Z 50)).
  - reflexivity.
  - reflexivity.
  - intros Hzero. discriminate Hzero.
  - intros Hzero. discriminate Hzero.
  - assert (Hkept : filterData [sizedRecord] (dealsFilter sizeFilters) =
                    [sizedRecord]) by (vm_compute; reflexivity).
    rewrite Hkept. left. reflexivity.
Defined.

(** A start date on a table of two deals. *)
Lemma getDeals_date_string_witness :
  getDeals twoDeals (dealsOptions (Some dateFilters)) =
  Ok {| deals := []; totalCount := 0 |}.
Proof.
  apply (getDeals_with_date_string_returns_nothing twoDeals
           (sampleMetadata "deals" 1 2) _ dateFilters).
  - reflexivity.
  - reflexivity.
  - left. split; reflexivity.
Defined.

(** The page size on the table of two records. *)
Lemma query_page_length_witness :
  exists res all,
    query twoRecords "t" (pageOptions 1 5) = Ok res /\
    getAllData twoRecords "t" = Ok all /\
    length (data res) = Nat.min 5 (length (filterData all ∅) - 1).
Proof.
  apply (query_page_length twoRecords "t" (sampleMetadata "t" 1 2)
           (pageOptions 1 5)).
  reflexivity.
Defined.

(** Two directories that differ in their second chunk give the same first
    page of two records. *)
Lemma query_page_ignores_later_chunks_witness :
  exists res res',
    query (twoChunks [idRecord 3]) "t" (pageOptions 0 2) = Ok res /\
    query (twoChunks [idRecord 9]) "t" (pageOptions 0 2) = Ok res' /\
    data res = data res'.
Proof.
  apply (query_page_ignores_later_chunks
           (twoChunks [idRecord 3]) (twoChunks [idRecord 9]) "t"
           (sampleMetadata "t" 2 3) (sampleMetadata "t" 2 3)
           (pageOptions 0 2) 2 1).
  - reflexivity.
  - reflexivity.
  - reflexivity.
  - simpl. lia.
  - simpl. lia.
  - intros i Hi. assert (i = 0%nat) as -> by lia. reflexivity.
  - assert (Hlen : length (matchStream (twoChunks [idRecord 3]) "t" ∅ (seq 0 1)) =
                   2%nat) by reflexivity.
    simpl default. rewrite Hlen. lia.
Defined.

(** Two pages of the table of two records. *)
Lemma query_total_ignores_paging_witness :
  exists res res',
    query twoRecords "t" (pageOptions 0 1) = Ok res /\
    query twoRecords "t" (pageOptions 1 5) = Ok res' /\
    total res = total res' /\
    offset_ res = 0%nat /\
    limit_ res = Finite 1.
Proof.
  apply (query_total_ignores_paging twoRecords "t" (sampleMetadata "t" 1 2)
           (pageOptions 0 1) (pageOptions 1 5)); reflexivity.
Defined.


(** The table of two records sorted by id, descending. *)
Lemma query_page_is_ordered_witness :
  exists res,
    query twoRecords "t" (sortedBy idDescending) = Ok res /\
    StronglySorted
      (fun a b => (numberOf (get b "id") <= numberOf (get a "id"))%Q)
      (data res).
Proof.
  apply (query_page_is_ordered_by_numeric_field twoRecords "t"
           (sampleMetadata "t" 1 2) (sortedBy idDescending) idDescending).
  - reflexivity.
  - reflexivity.
  - reflexivity.
  - intros i chunk r Hi Hread Hin. simpl in Hi.
    assert (i = 0%nat) as -> by lia.
    assert (Hchunk : readChunk twoRecords "t" 0 =
                     Some [idRecord 2; idRecord 1]) by reflexivity.
    rewrite Hchunk in Hread. injection Hread as <-.
    destruct Hin as [<-|[<-|[]]]; reflexivity.
Defined.

(** The unsorted, unbounded query on the table of two records. *)
Lemma query_unsorted_unbounded_witness :
  exists res all,
    query twoRecords "t"
          {| filter := None; limit := None; offset := None; fields := None;
             sort := SortNull |} = Ok res /\
    getAllData twoRecords "t" = Ok all /\
    data res = all.
Proof.
  apply (query_unsorted_unbounded_is_getAllData twoRecords "t"
           (sampleMetadata "t" 1 2)).
  reflexivity.
Defined.

(** The deal of id 2, stored behind the deal of id 1. *)
Lemma getDealById_first_match_witness :
  getDealById twoDeals (num 2) = Ok (transformDealToCamelCase (idRecord 2)).
Proof.
  apply (getDealById_returns_first_match twoDeals (sampleMetadata "deals" 1 2)
           (num 2) 0 [idRecord 1] [] (idRecord 2)).
  - reflexivity.
  - simpl. lia.
  - reflexivity.
  - reflexivity.
  - intros d [<-|[]]. reflexivity.
  - intros j chunk d Hj. lia.
Defined.

(** The first page of the table of two deals. *)
Lemma getDeals_page_witness :
  exists answer,
    getDeals twoDeals (dealsOptions None) = Ok answer /\
    Forall (fun deal => dom deal = list_to_set canonicalKeys) (deals answer) /\
    (length (deals answer) <= 100)%nat.
Proof.
  eexists. split; [reflexivity|].
  apply (getDeals_page_is_canonical_and_bounded twoDeals (dealsOptions None)).
  reflexivity.
Defined.

(** The counts of the four deals. *)
Lemma getStatistics_counts_witness :
  exists stats all,
    getStatistics fourDeals = Ok stats /\
    getAllData fourDeals "deals" = Ok all /\
    totalDeals stats = length all /\
    completedDeals stats = length (List.filter (hasStatus "Completed") all) /\
    announcedDeals stats = length (List.filter (hasStatus "Announced") all) /\
    pendingDeals stats = length (List.filter (hasStatus "Pending") all).
Proof.
  apply (getStatistics_counts_deals_and_statuses fourDeals
           (sampleMetadata "deals" 1 4)).
  reflexivity.
Defined.

(** The largest of the values 10, 20, null, 30. *)
Lemma getStatistics_largestDeal_witness :
  exists stats all,
    getStatistics fourDeals = Ok stats /\
    getAllData fourDeals "deals" = Ok all /\
    (0 <= largestDeal stats)%Q /\
    Forall (fun v => (v <= largestDeal stats)%Q) (nonZeroValues all) /\
    (largestDeal stats = 0%Q \/ In (largestDeal stats) (nonZeroValues all)).
Proof.
  apply (getStatistics_largestDeal_is_the_maximum fourDeals
           (sampleMetadata "deals" 1 4)).
  reflexivity.
Defined.

(** The filter options of the four deals. *)
Lemma getFilterOptions_values_witness :
  exists options all,
    getFilterOptions fourDeals = Ok options /\
    getAllData fourDeals "deals" = Ok all /\
    collects (map (fun deal => pick deal "transaction_type" "transactionType") all)
             (transactionTypes options) /\
    collects (map (fun deal => pick deal "target_region" "targetRegion") all)
             (regions options) /\
    collects (flat_map (fun deal =>
                          [pick deal "target_industry_1" "targetIndustry1";
                           pick deal "target_industry_2" "targetIndustry2"]) all)
             (industries options).
Proof.
  apply (getFilterOptions_lists_the_values_of_the_table fourDeals
           (sampleMetadata "deals" 1 4)).
  reflexivity.
Defined.

Lemma getFilterOptions_sorted_witness :
  exists options,
    getFilterOptions fourDeals = Ok options /\
    Forall (fun l =>
              StronglySorted (fun a b => strictEq a b = false) l /\
              StronglySorted (fun a b => strLtb (toStr b) (toStr a) = false) l)
           [transactionTypes options; regions options; industries options].
Proof.
  apply (getFilterOptions_lists_are_distinct_and_sorted fourDeals
           (sampleMetadata "deals" 1 4)).
  reflexivity.
Defined.

(** The light page of the four deals. *)
Lemma getDealsLight_pages_witness :
  exists all,
    getAllData fourDeals "deals" = Ok all /\
    data (getDealsLight fourDeals (pageOptions 1 2)) =
    map lightDeal (take 2 (drop 1 all)).
Proof.
  apply (getDealsLight_pages_the_whole_table fourDeals
           (sampleMetadata "deals" 1 4) (pageOptions 1 2)).
  - reflexivity.
  - reflexivity.
  - intros i Hi. simpl in Hi. assert (i = 0%nat) as -> by lia.
    assert (Hlen : length (chunkRecords fourDeals "deals" 0) = 4%nat)
      by reflexivity.
    rewrite Hlen. unfold CHUNK_SIZE. cbn [chunksCount sampleMetadata].
    split; [lia | intros; lia].
Defined.

(** Two converted rows stored as the chunk of the deals table. *)
Lemma converted_rows_witness :
  getAllData twoDeals "deals" = Ok [idRecord 1; idRecord 2] /\
  count twoDeals "deals" ∅ = Ok (length (filterData [idRecord 1; idRecord 2] ∅)).
Proof.
  assert (Hchunks : totalChunks [idRecord 1; idRecord 2] = 1%nat) by reflexivity.
  apply (converted_rows_are_read_back twoDeals "deals"
           (sampleMetadata "deals" 1 2) [idRecord 1; idRecord 2] ∅).
  - reflexivity.
  - reflexivity.
  - reflexivity.
  - intros i Hi. rewrite Hchunks in Hi. assert (i = 0%nat) as -> by lia.
    reflexivity.
Defined.

(** A record kept by the date filter matches its clause. *)
Lemma filterData_conjunction_witness :
  In datedRecord [datedRecord] /\
  forall field v,
    (∅ : record) !! field = Some v -> matchesClause datedRecord field v = true.
Proof.
  apply (filterData_keeps_the_records_matching_every_clause
           [datedRecord] ∅ datedRecord).
  left. reflexivity.
Defined.

(** The sort field name of [getDeals] has no upper-case letter left. *)
Lemma camelToSnakeCase_witness :
  camelToSnakeCase "announcement_date" = "announcement_date".
Proof.
  destruct (camelToSnakeCase_removes_upper_case "announcement_date")
    as (_ & Hfixed & _).
  apply Hfixed. reflexivity.
Defined.

(** The table of four deals counts as loaded. *)
Lemma checkDataLoaded_witness : checkDataLoaded (Some fourDeals) = true.
Proof.
  apply (checkDataLoaded_iff_some_record (Some fourDeals)).
  do 2 eexists. split; [reflexivity|]. split; [reflexivity|]. discriminate.
Defined.

(** Two rows make one chunk, neither empty nor too long. *)
Lemma script_chunks_witness :
  (0 < length (chunkOf [idRecord 1; idRecord 2] 0) <= CHUNK_SIZE)%nat.
Proof.
  apply (script_chunks_partition_the_rows "data" [idRecord 1; idRecord 2]).
  assert (Hchunks : totalChunks [idRecord 1; idRecord 2] = 1%nat) by reflexivity.
  rewrite Hchunks. lia.
Defined.

End FurtherSamples.
